(** * Playlist gateway and MPD attribute patch of tidal-dl-ng: a shallow embedding

    The development embeds two modules of the program:

    - [tidal_dl_ng/helper/playlist_api.py]: the functions that talk to the
      remote playlist service through a [tidalapi] session
      ([get_user_playlists], [get_playlist_items], [add_track_to_playlist],
      [remove_track_from_playlist], [get_playlist_metadata]);
    - [tidal_dl_ng/helper/mpegdash_patch.py]: the replacement attribute parser
      for MPD manifests and the one-shot routine that installs it.

    Python code raises exceptions, mutates objects and calls into libraries.
    The embedding keeps all three visible: a computation is a function from a
    heap to a result (a value, a raised exception, or no answer within the
    allotted loop iterations), a final heap, and the trace of the library calls
    it issued, in the order it issued them. *)

From Stdlib Require Import ZArith List String Ascii DecimalString Lia.
From stdpp Require Import gmap strings.
Import ListNotations.

Local Open Scope string_scope.

(** ** Python values and exceptions *)

(** The values an identifier or a playlist attribute takes: [None], an [int],
    a [str]. *)
Inductive pyval :=
| VNone
| VInt (z : Z)
| VStr (s : string).

(** [str(v)]. *)
Definition py_str (v : pyval) : string :=
  match v with
  | VNone => "None"
  | VInt z => NilZero.string_of_int (Z.to_int z)
  | VStr s => s
  end.

(** The exception classes the two modules name, one class below
    [RequestException] ([HTTPError], what [raise_for_status] raises on a
    non-2xx status), [AttributeError], one for every other subclass of
    [Exception], and one that is no subclass of [Exception]. *)
Inductive exn_class :=
| TypeError
| ValueError
| RequestException
| HTTPError
| ImportError
| AttributeError
| OtherException
| KeyboardInterrupt.

Record exn := Exn { exn_cls : exn_class; exn_msg : string }.

(** [isinstance(e, TypeError)] and its siblings: the tests the [except]
    clauses of the source perform. *)
Definition isinstance_TypeError (e : exn) : bool :=
  match exn_cls e with TypeError => true | _ => false end.

Definition isinstance_ValueError (e : exn) : bool :=
  match exn_cls e with ValueError => true | _ => false end.

Definition isinstance_RequestException (e : exn) : bool :=
  match exn_cls e with RequestException | HTTPError => true | _ => false end.

Definition isinstance_ImportError (e : exn) : bool :=
  match exn_cls e with ImportError => true | _ => false end.

Definition isinstance_Exception (e : exn) : bool :=
  match exn_cls e with KeyboardInterrupt => false | _ => true end.

(** [except (TypeError, ValueError)] and [except (ValueError, TypeError)]. *)
Definition isinstance_TypeError_or_ValueError (e : exn) : bool :=
  isinstance_TypeError e || isinstance_ValueError e.

(** What running a piece of code gives: a value, an exception, or nothing
    within the loop iterations it was allowed. *)
Inductive res (A : Type) :=
| Ok (a : A)
| Raise (e : exn)
| OutOfFuel.

Arguments Ok {A} a.
Arguments Raise {A} e.
Arguments OutOfFuel {A}.

(** ** [int(...)]

    [int] applied to a [str] either returns an integer or raises
    [ValueError]; which strings it accepts is the interpreter's business and is
    a parameter [int_str] of everything below ([None] stands for the
    [ValueError]).  Applied to [None] it raises [TypeError]; applied to an
    [int] it returns it. *)
Definition py_int (int_str : string -> option Z) (v : pyval) : res Z :=
  match v with
  | VNone =>
      Raise (Exn TypeError
        "int() argument must be a string, a bytes-like object or a real number, not 'NoneType'")
  | VInt z => Ok z
  | VStr s =>
      match int_str s with
      | Some z => Ok z
      | None => Raise (Exn ValueError ("invalid literal for int() with base 10: '" ++ s ++ "'"))
      end
  end.

(** One accepted fragment of [int] on strings, used to run the definitions on
    concrete inputs: an optional sign followed by one or more ASCII digits. *)
Definition digit_of_ascii (c : ascii) : option Z :=
  let n := Z.of_nat (nat_of_ascii c) in
  if ((48 <=? n) && (n <=? 57))%Z then Some (n - 48)%Z else None.

Fixpoint digits_value (acc : Z) (s : string) : option Z :=
  match s with
  | EmptyString => Some acc
  | String c s' =>
      match digit_of_ascii c with
      | Some d => digits_value (10 * acc + d) s'
      | None => None
      end
  end.

Definition unsigned_decimal (s : string) : option Z :=
  match s with
  | EmptyString => None
  | _ => digits_value 0 s
  end.

Definition ascii_decimal (s : string) : option Z :=
  match s with
  | String "-"%char s' => option_map Z.opp (unsigned_decimal s')
  | String "+"%char s' => unsigned_decimal s'
  | _ => unsigned_decimal s
  end.

(** ** Media items *)

(** What [isinstance(item, Track)] tells apart. *)
Inductive media_kind := Track | Video | OtherMedia.

(** A playlist entry: its class and its [id] attribute, when it has one. *)
Record item := Item { item_kind : media_kind; item_id : option pyval }.

Definition is_Track (it : item) : bool :=
  match item_kind it with Track => true | _ => false end.

(** [getattr(item, "id", None)]. *)
Definition getattr_id (it : item) : pyval :=
  match item_id it with
  | Some v => v
  | None => VNone
  end.

(** How [playlist.items] was called: [items(offset=o, limit=l)] or
    [items(o, l)]. *)
Inductive call_style := Keyword | Positional.

(** The library calls and the log lines a run leaves behind.  A call to
    [playlist.items] is recorded with its two arguments as the source passes
    them, [offset] then [limit] (by name in a [Keyword] call, as first and
    second positional argument in a [Positional] one), and with what it gave
    back. *)
Inductive event :=
| EvUserPlaylists
| EvSessionPlaylist (playlist_id : string)
| EvSetItemsNone
| EvItems (style : call_style) (offset limit : nat) (r : res (option (list item)))
| EvRequest (method path : string)
| EvRaiseForStatus
| EvAdd (ids : list pyval)
| EvRemoveByIndex (index : nat)
| EvLogError (msg : string).

(** ** Heaps, runs and the computation monad *)

Section Gateway.

(** [W] is the state of everything behind the session: the remote service, or
    the script of a test double. *)
Context {W : Type}.

(** The heap a gateway function works on: the remote state and the [_items]
    attribute of the playlist object at hand (the locally cached item list). *)
Record heap := Heap { remote : W; cached_items : option (list item) }.

(** A library method: it reads and writes the heap and returns or raises. *)
Definition ext (A : Type) : Type := heap -> res A * heap.

Record run (A : Type) := Run { result : res A; final : heap; trace : list event }.

Arguments Run {A} result final trace.
Arguments result {A} r.
Arguments final {A} r.
Arguments trace {A} r.

Definition M (A : Type) : Type := heap -> run A.

Definition ret {A} (a : A) : M A := fun h => Run (Ok a) h [].

Definition raise {A} (e : exn) : M A := fun h => Run (Raise e) h [].

Definition out_of_fuel {A} : M A := fun h => Run OutOfFuel h [].

Definition bind {A B} (m : M A) (k : A -> M B) : M B :=
  fun h =>
    let r := m h in
    match result r with
    | Ok a => let r' := k a (final r) in Run (result r') (final r') (trace r ++ trace r')
    | Raise e => Run (Raise e) (final r) (trace r)
    | OutOfFuel => Run OutOfFuel (final r) (trace r)
    end.

(** [try: m  except <catches> as e: handler e]. *)
Definition try_except {A} (m : M A) (catches : exn -> bool) (handler : exn -> M A) : M A :=
  fun h =>
    let r := m h in
    match result r with
    | Raise e =>
        if catches e
        then let r' := handler e (final r) in Run (result r') (final r') (trace r ++ trace r')
        else r
    | _ => r
    end.

(** A library call: the event records the call (and, for [items], its
    outcome). *)
Definition call {A} (ev : res A -> event) (f : ext A) : M A :=
  fun h => let '(r, h') := f h in Run r h' [ev r].

(** [logger_gui.error(msg)]. *)
Definition logger_error (msg : string) : M unit :=
  fun h => Run (Ok tt) h [EvLogError msg].

(** A pure computation that may raise, run inside [M]. *)
Definition lift {A} (r : res A) : M A := fun h => Run r h [].

End Gateway.

Arguments heap W : clear implicits.
Arguments ext W A : clear implicits.
Arguments run W A : clear implicits.
Arguments M W A : clear implicits.
Arguments Run {W A} result final trace.
Arguments result {W A} r.
Arguments final {W A} r.
Arguments trace {W A} r.

Declare Scope py_scope.
Delimit Scope py_scope with py.
Notation "'do' x <- m ; k" := (bind m (fun x => k))
  (at level 20, x name, m at level 100, k at level 200, only parsing) : py_scope.
Notation "m1 ;; m2" := (bind m1 (fun _ => m2))
  (at level 100, m2 at level 200, only parsing, right associativity) : py_scope.

(** ** The objects of [tidalapi] the gateway uses *)

Section Objects.

Context {W : Type}.

(** A [UserPlaylist] as the functions that call the remote service use it:
    its [id], which they print in their log lines, its [name] and
    [num_tracks] when it has them, and the methods they call. *)
Record Playlist := {
  pl_id : pyval;
  pl_name : option pyval;
  pl_num_tracks : option pyval;
  pl_items : call_style -> nat -> nat -> ext W (option (list item));
  pl_add : list pyval -> ext W unit;
  pl_remove_by_index : nat -> ext W unit
}.

(** The object [session.request(...)] returns; [raise_for_status] is present
    when [hasattr(resp, "raise_for_status")]. *)
Record Response := { raise_for_status : option (ext W unit) }.

(** [session.user]. *)
Record User := { u_playlists : ext W (option (list Playlist)) }.

(** A [Session]: [s_user] is [None] when [session.user] is falsy; [s_request]
    is [Some] exactly when [getattr(session, "request", None)] is callable. *)
Record Session := {
  s_user : option User;
  s_playlist : string -> ext W (option Playlist);
  s_request : option (string -> string -> ext W Response)
}.

End Objects.

Arguments Playlist W : clear implicits.
Arguments Response W : clear implicits.
Arguments User W : clear implicits.
Arguments Session W : clear implicits.

(** ** [playlist_api.py] *)

Section PlaylistApi.

Context {W : Type} (int_str : string -> option Z).

Local Open Scope py_scope.

(** Truth value of a list or [None], as [if x:] and [if not x:] take it. *)
Definition truthy {A} (x : option (list A)) : bool :=
  match x with
  | Some (_ :: _) => true
  | _ => false
  end.

(** [list(x)] for a truthy [x]. *)
Definition elements_of {A} (x : option (list A)) : list A :=
  match x with
  | Some l => l
  | None => []
  end.

(** [get_user_playlists(session)]. *)
Definition get_user_playlists (session : Session W) : M W (list (Playlist W)) :=
  match s_user session with
  | None => raise (Exn ValueError "User not authenticated")
  | Some user =>
      try_except
        (do playlists <- call (fun _ => EvUserPlaylists) (u_playlists user);
         ret (if truthy playlists then elements_of playlists else []))
        isinstance_RequestException
        (fun e =>
           logger_error ("Failed to fetch user playlists: " ++ exn_msg e) ;;
           raise e)
  end.

(** [playlist._items = None]. *)
Definition set_items_none : M W unit :=
  fun h => Run (Ok tt) (Heap (remote h) None) [EvSetItemsNone].

(** The page request of both pagination loops:
    [try: batch = playlist.items(offset=offset, limit=limit)]
    [except TypeError: batch = playlist.items(offset, limit)]. *)
Definition fetch_batch (playlist : Playlist W) (offset limit : nat)
  : M W (option (list item)) :=
  try_except
    (call (EvItems Keyword offset limit) (pl_items playlist Keyword offset limit))
    isinstance_TypeError
    (fun _ => call (EvItems Positional offset limit) (pl_items playlist Positional offset limit)).

(** The [while True:] loop that [get_playlist_items] and
    [remove_track_from_playlist] both contain.  The two copies differ in what
    they keep of a batch ([keep]): the first extends the accumulator with the
    [Track] instances of the batch, the second with the whole batch.  [fuel]
    bounds the number of iterations. *)
Fixpoint items_loop (fuel : nat) (playlist : Playlist W) (keep : list item -> list item)
    (limit offset : nat) (all_items : list item) : M W (list item) :=
  match fuel with
  | O => out_of_fuel
  | S fuel' =>
      do batch <- fetch_batch playlist offset limit;
      if negb (truthy batch) then ret all_items
      else
        let all_items := (all_items ++ keep (elements_of batch))%list in
        let offset := offset + length (elements_of batch) in
        if Nat.ltb (length (elements_of batch)) limit then ret all_items
        else items_loop fuel' playlist keep limit offset all_items
  end.

(** [get_playlist_items(playlist)]. *)
Definition get_playlist_items (fuel : nat) (playlist : Playlist W) : M W (list item) :=
  try_except
    (set_items_none ;;
     items_loop fuel playlist (List.filter is_Track) 100 0 [])
    isinstance_RequestException
    (fun e =>
       logger_error ("Failed to fetch playlist items for " ++ py_str (pl_id playlist)
                     ++ ": " ++ exn_msg e) ;;
       raise e).

(** The identifier normalisation of [add_track_to_playlist]:
    [try: norm_id = int(track_id)]
    [except (TypeError, ValueError): norm_id = track_id]. *)
Definition normalize_id (track_id : pyval) : M W pyval :=
  try_except
    (do z <- lift (py_int int_str track_id); ret (VInt z))
    isinstance_TypeError_or_ValueError
    (fun _ => ret track_id).

(** The request hook of [add_track_to_playlist]: when the session has a
    callable [request], post to the playlist's tracks and check the status;
    whatever [Exception] that raises is raised again as a
    [RequestException]. *)
Definition request_hook (session : Session W) (playlist_id : string) : M W unit :=
  match s_request session with
  | Some req =>
      try_except
        (do resp <- call (fun _ => EvRequest "POST" ("/playlists/" ++ playlist_id ++ "/tracks"))
                         (req "POST" ("/playlists/" ++ playlist_id ++ "/tracks"));
         match raise_for_status resp with
         | Some check => call (fun _ => EvRaiseForStatus) check
         | None => ret tt
         end)
        isinstance_Exception
        (fun e => raise (Exn RequestException (exn_msg e)))
  | None => ret tt
  end.

(** [add_track_to_playlist(session, playlist_id, track_id)]. *)
Definition add_track_to_playlist (session : Session W) (playlist_id : string)
    (track_id : pyval) : M W unit :=
  try_except
    (do playlist <- call (fun _ => EvSessionPlaylist playlist_id)
                         (s_playlist session playlist_id);
     match playlist with
     | None => raise (Exn ValueError ("Playlist " ++ playlist_id ++ " not found"))
     | Some playlist =>
         do norm_id <- normalize_id track_id;
         request_hook session playlist_id ;;
         call (fun _ => EvAdd [norm_id]) (pl_add playlist [norm_id])
     end)
    isinstance_RequestException
    (fun e =>
       logger_error ("Failed to add track " ++ py_str track_id ++ " to playlist "
                     ++ playlist_id ++ ": " ++ exn_msg e) ;;
       raise e).

(** The search of [remove_track_from_playlist]:
    [for i, item in enumerate(items_all):] take the first [i] with
    [str(getattr(item, "id", None)) == str(track_id)]. *)
Definition id_matches (track_id : pyval) (it : item) : bool :=
  String.eqb (py_str (getattr_id it)) (py_str track_id).

Fixpoint find_track_index (track_id : pyval) (items_all : list item) (i : nat) : option nat :=
  match items_all with
  | [] => None
  | it :: rest =>
      if id_matches track_id it then Some i
      else find_track_index track_id rest (S i)
  end.

(** [remove_track_from_playlist(session, playlist_id, track_id)]. *)
Definition remove_track_from_playlist (fuel : nat) (session : Session W)
    (playlist_id : string) (track_id : pyval) : M W unit :=
  try_except
    (do playlist <- call (fun _ => EvSessionPlaylist playlist_id)
                         (s_playlist session playlist_id);
     match playlist with
     | None => raise (Exn ValueError ("Playlist " ++ playlist_id ++ " not found"))
     | Some playlist =>
         set_items_none ;;
         do items_all <- items_loop fuel playlist (fun batch => batch) 100 0 [];
         match find_track_index track_id items_all 0 with
         | None => ret tt
         | Some track_index =>
             call (fun _ => EvRemoveByIndex track_index)
                  (pl_remove_by_index playlist track_index)
         end
     end)
    isinstance_RequestException
    (fun e =>
       logger_error ("Failed to remove track " ++ py_str track_id ++ " from playlist "
                     ++ playlist_id ++ ": " ++ exn_msg e) ;;
       raise e).

(** An object as attribute access sees it: its attributes, by name.
    [hasattr(obj, name)] tells whether the attribute is there; [obj.name]
    raises [AttributeError] when it is not. *)
Definition hasattr (obj : gmap string pyval) (name : string) : bool :=
  match obj !! name with Some _ => true | None => false end.

Definition getattr (obj : gmap string pyval) (name : string) : res pyval :=
  match obj !! name with
  | Some v => Ok v
  | None => Raise (Exn AttributeError ("object has no attribute '" ++ name ++ "'"))
  end.

(** Sequencing of pure computations that may raise. *)
Definition res_bind {A B} (r : res A) (k : A -> res B) : res B :=
  match r with
  | Ok a => k a
  | Raise e => Raise e
  | OutOfFuel => OutOfFuel
  end.

(** [get_playlist_metadata(playlist)]: the dictionary literal, its entries
    evaluated in the order they are written.  [playlist.id] is read without a
    guard, in the default of [name] and in the entry [id]. *)
Definition get_playlist_metadata (playlist : gmap string pyval) : res (gmap string pyval) :=
  res_bind
    (if hasattr playlist "name" then getattr playlist "name"
     else res_bind (getattr playlist "id")
            (fun id => Ok (VStr ("Playlist " ++ py_str id))))
    (fun name =>
  res_bind
    (if hasattr playlist "num_tracks" then getattr playlist "num_tracks"
     else Ok (VInt 0))
    (fun item_count =>
  res_bind (getattr playlist "id")
    (fun id =>
  Ok (<["id" := VStr (py_str id)]>
      (<["item_count" := item_count]>
      (<["name" := name]> ∅)))))).

(** The attributes [get_playlist_metadata] finds on a [UserPlaylist]. *)
Definition playlist_attributes (playlist : Playlist W) : gmap string pyval :=
  let with_id : gmap string pyval := {[ "id" := pl_id playlist ]} in
  let with_name :=
    match pl_name playlist with
    | Some name => <["name" := name]> with_id
    | None => with_id
    end in
  match pl_num_tracks playlist with
  | Some n => <["num_tracks" := n]> with_name
  | None => with_name
  end.

End PlaylistApi.

Arguments get_user_playlists {W} session.
Arguments get_playlist_items {W} fuel playlist.
Arguments items_loop {W} fuel playlist keep limit offset all_items.
Arguments fetch_batch {W} playlist offset limit.
Arguments set_items_none {W}.
Arguments request_hook {W} session playlist_id.
Arguments playlist_attributes {W} playlist.

(** ** [mpegdash_patch.py] *)

Section MpegdashPatch.

(** [V] stands for the values a conversion other than [int] and [str]
    produces ([float], [bool], ...). *)
Context {V : Type} (int_str : string -> option Z).

(** A converted attribute value, and what the parser returns: [None], one
    value, or a list of values. *)
Inductive scalar :=
| SInt (z : Z)
| SStr (s : string)
| SOther (v : V).

Inductive parsed :=
| PNone
| PScalar (x : scalar)
| PList (xs : list scalar).

(** A type object found in [value_type]: [int], [str], or another callable
    with its [__name__], when it has one, and what calling it on a string
    gives. *)
Inductive type_obj :=
| TyInt
| TyStr
| TyOther (name : option string) (conv : string -> res V).

(** [value_type]: a list of type objects ([isinstance(value_type, list)]) or
    one type object. *)
Inductive value_type :=
| VTList (ts : list type_obj)
| VTScalar (t : type_obj).

(** [value_type == int]. *)
Definition is_int_type (t : type_obj) : bool :=
  match t with TyInt => true | _ => false end.

(** [value_type.__name__]: it raises [AttributeError] on a callable that
    has no such attribute. *)
Definition type_name (t : type_obj) : res string :=
  match t with
  | TyInt => Ok "int"
  | TyStr => Ok "str"
  | TyOther (Some name) _ => Ok name
  | TyOther None _ => Raise (Exn AttributeError "object has no attribute '__name__'")
  end.

(** [t(s)] for a type object [t]. *)
Definition apply_type (t : type_obj) (s : string) : res scalar :=
  match t with
  | TyInt => res_bind (py_int int_str (VStr s)) (fun z => Ok (SInt z))
  | TyStr => Ok (SStr s)
  | TyOther _ conv => res_bind (conv s) (fun v => Ok (SOther v))
  end.

(** A DOM node: its attributes, name to [nodeValue]. *)
Record xmlnode := { attributes : gmap string string }.

(** [_safe_int(value)]. *)
Definition _safe_int (value : pyval) : res (option Z) :=
  match py_int int_str value with
  | Ok z => Ok (Some z)
  | Raise e => if isinstance_TypeError_or_ValueError e then Ok None else Raise e
  | OutOfFuel => OutOfFuel
  end.

(** [re.split(r"[, ]", s)]: cut at every comma and every space. *)
Definition is_separator (c : ascii) : bool :=
  (Ascii.eqb c ","%char || Ascii.eqb c " "%char)%bool.

Fixpoint split_from (piece : string) (s : string) : list string :=
  match s with
  | EmptyString => [piece]
  | String c s' =>
      if is_separator c then piece :: split_from "" s'
      else split_from (piece ++ String c "") s'
  end.

Definition re_split (s : string) : list string := split_from "" s.

(** A list comprehension [[f(elem) for elem in l]]: the first exception
    ends it. *)
Fixpoint comprehension {A B} (f : A -> res B) (l : list A) : res (list B) :=
  match l with
  | [] => Ok []
  | x :: l' =>
      res_bind (f x) (fun y => res_bind (comprehension f l') (fun ys => Ok (y :: ys)))
  end.

(** [patched_parse_attr_value(xmlnode, attr_name, value_type)]: the value
    returned or the exception raised, with the lines sent to
    [logger.debug].  The line of the last handler is built before it is sent,
    so that an exception of [value_type.__name__] leaves the handler and
    nothing is logged. *)
Definition patched_parse_attr_value (node : xmlnode) (attr_name : string)
    (vt : value_type) : res parsed * list string :=
  match attributes node !! attr_name with
  | None => (Ok PNone, [])
  | Some attr_val =>
      match vt with
      | VTList ts =>
          let attr_type := match ts with t :: _ => t | [] => TyStr end in
          match comprehension (apply_type attr_type) (re_split attr_val) with
          | Raise e =>
              if isinstance_TypeError_or_ValueError e
              then (Ok (PList (map SStr (re_split attr_val))), [])
              else (Raise e, [])
          | r => (res_bind r (fun xs => Ok (PList xs)), [])
          end
      | VTScalar t =>
          if is_int_type t then
            match _safe_int (VStr attr_val) with
            | Ok None =>
                (Ok PNone,
                 ["mpegdash: Could not convert '" ++ attr_name ++ "'='" ++ attr_val
                  ++ "' to int, using None"])
            | Ok (Some z) => (Ok (PScalar (SInt z)), [])
            | Raise e => (Raise e, [])
            | OutOfFuel => (OutOfFuel, [])
            end
          else
            match apply_type t attr_val with
            | Raise e =>
                if isinstance_TypeError_or_ValueError e
                then match type_name t with
                     | Ok name =>
                         (Ok PNone,
                          ["mpegdash: Could not convert '" ++ attr_name ++ "'='" ++ attr_val
                           ++ "' to " ++ name ++ ", using None"])
                     | Raise e' => (Raise e', [])
                     | OutOfFuel => (OutOfFuel, [])
                     end
                else (Raise e, [])
            | r => (res_bind r (fun x => Ok (PScalar x)), [])
            end
      end
  end.

End MpegdashPatch.

Arguments scalar V : clear implicits.
Arguments parsed V : clear implicits.
Arguments type_obj V : clear implicits.
Arguments value_type V : clear implicits.

(** *** Installing the patch *)

(** What [mpegdash.utils.parse_attr_value] is bound to: the library's own
    function, or a closure made by [apply_mpegdash_patch], which holds the
    function it replaced in [original_parse_attr_value]. *)
Inductive parser_impl :=
| LibraryParser
| PatchedParser (original_parse_attr_value : parser_impl).

(** The levels [apply_mpegdash_patch] logs at. *)
Inductive log_level := DEBUG | WARNING.

(** The interpreter state [apply_mpegdash_patch] reads and writes: the
    module-level guard [_patched], the module [mpegdash.utils] ([None] when
    [mpegdash] cannot be imported; the binding is [None] when the module has no
    [parse_attr_value]), and the lines sent to the logger. *)
Record interp := Interp {
  _patched : bool;
  mpegdash_utils : option (option parser_impl);
  logged : list (log_level * string)
}.

(** [apply_mpegdash_patch()]. *)
Definition apply_mpegdash_patch (st : interp) : interp :=
  if _patched st then st
  else
    match mpegdash_utils st with
    | None =>
        Interp (_patched st) (mpegdash_utils st)
               (logged st ++ [(WARNING, "Could not import mpegdash, patch not applied")])
    | Some None =>
        Interp (_patched st) (mpegdash_utils st)
               (logged st ++ [(WARNING,
                  "Failed to apply mpegdash patch: module 'mpegdash.utils' has no attribute 'parse_attr_value'")])
    | Some (Some original_parse_attr_value) =>
        Interp true (Some (Some (PatchedParser original_parse_attr_value)))
               (logged st ++ [(DEBUG, "mpegdash patch applied successfully")])
    end.

(** [n] calls in a row. *)
Fixpoint apply_mpegdash_patch_times (n : nat) (st : interp) : interp :=
  match n with
  | O => st
  | S n' => apply_mpegdash_patch_times n' (apply_mpegdash_patch st)
  end.

(** The function a binding runs: a closure made by the patch runs
    [patched_parse_attr_value] and never calls the function it holds. *)
Definition parser_behaviour {V} (int_str : string -> option Z)
    (library : xmlnode -> string -> value_type V -> res (parsed V) * list string)
    (p : parser_impl) : xmlnode -> string -> value_type V -> res (parsed V) * list string :=
  match p with
  | LibraryParser => library
  | PatchedParser _ => patched_parse_attr_value int_str
  end.

(** ** Observations on traces *)

(** The calls to [playlist.add] and to [playlist.remove_by_index] in a
    trace, the calls to [playlist.items], and the items those delivered, page
    after page. *)
Definition is_add_event (ev : event) : bool :=
  match ev with EvAdd _ => true | _ => false end.

Definition is_remove_event (ev : event) : bool :=
  match ev with EvRemoveByIndex _ => true | _ => false end.

Definition is_user_playlists_event (ev : event) : bool :=
  match ev with EvUserPlaylists => true | _ => false end.

Definition is_items_event (ev : event) : bool :=
  match ev with EvItems _ _ _ _ => true | _ => false end.

Definition page_of (ev : event) : list item :=
  match ev with
  | EvItems _ _ _ (Ok (Some page)) => page
  | _ => []
  end.

Definition delivered (tr : list event) : list item := flat_map page_of tr.

(** What a loop that keeps [keep page] of every page has kept of the pages a
    trace delivered. *)
Definition kept (keep : list item -> list item) (tr : list event) : list item :=
  flat_map (fun ev => keep (page_of ev)) tr.

(** The pages of a script a pagination loop with page size [limit] reads: all
    pages up to and including the first one shorter than [limit]. *)
Fixpoint pages_read (limit : nat) (pages : list (list item)) : list (list item) :=
  match pages with
  | [] => []
  | page :: rest =>
      if Nat.ltb (length page) limit then [page]
      else page :: pages_read limit rest
  end.

(** The error lines in a trace, and the error line a gateway function owes
    for an outcome: one, built by [msg], for a [RequestException], and none
    otherwise. *)
Definition is_log_event (ev : event) : bool :=
  match ev with EvLogError _ => true | _ => false end.

Definition error_log_of {A} (msg : exn -> string) (r : res A) : list event :=
  match r with
  | Raise e => if isinstance_RequestException e then [EvLogError (msg e)] else []
  | _ => []
  end.

(** A computation that writes no error line, whatever heap it starts on. *)
Definition silent {W A} (m : M W A) : Prop :=
  forall h, List.filter is_log_event (trace (m h)) = [].

(** A trace requests no page after a short one: every page that is followed
    by another call to [playlist.items] was non-empty and held at least
    [limit] items. *)
Fixpoint ends_at_short_page (limit : nat) (tr : list event) : bool :=
  match tr with
  | [] => true
  | EvItems _ _ _ (Ok batch) :: tr' =>
      (negb (existsb is_items_event tr')
       || (truthy batch && Nat.leb limit (length (elements_of batch))))
      && ends_at_short_page limit tr'
  | _ :: tr' => ends_at_short_page limit tr'
  end.

(** The outcome of a computation, its value mapped by [f]. *)
Definition res_map {A B} (f : A -> B) (r : res A) : res B :=
  match r with
  | Ok a => Ok (f a)
  | Raise e => Raise e
  | OutOfFuel => OutOfFuel
  end.

(** The calls of the request hook in a trace. *)
Definition is_hook_event (ev : event) : bool :=
  match ev with EvRequest _ _ | EvRaiseForStatus => true | _ => false end.

(** A trace pages from [offset] in steps of what was delivered: every call to
    [playlist.items] is passed, as its [offset] argument, the number of items
    delivered before it counted from [offset], and [limit] as its [limit]
    argument (arguments as [EvItems] records them). *)
Fixpoint paged_from (limit offset : nat) (tr : list event) : bool :=
  match tr with
  | [] => true
  | EvItems style o l r :: tr' =>
      Nat.eqb o offset && Nat.eqb l limit
      && paged_from limit (offset + length (page_of (EvItems style o l r))) tr'
  | _ :: tr' => paged_from limit offset tr'
  end.

(** ** Test doubles

    Sources and sessions in the manner of the mocks of
    [tests/test_playlist_manager.py], on which the definitions run. *)

(** A source that serves a script of pages one after the other, whatever
    offset and limit it is asked for, and empty pages once the script is
    over. *)
Definition scripted_items (style : call_style) (offset limit : nat)
  : ext (list (list item)) (option (list item)) :=
  fun h =>
    match remote h with
    | [] => (Ok (Some []), h)
    | page :: rest => (Ok (Some page), Heap rest (cached_items h))
    end.

Definition scripted_playlist : Playlist (list (list item)) :=
  {| pl_id := VStr "playlist_1";
     pl_name := Some (VStr "Favorites");
     pl_num_tracks := None;
     pl_items := scripted_items;
     pl_add := fun _ h => (Ok tt, h);
     pl_remove_by_index := fun _ h => (Ok tt, h) |}.

(** [n] tracks, numbered from [start]. *)
Definition track_numbered (i : nat) : item :=
  Item Track (Some (VInt (Z.of_nat i))).

Definition tracks_from (start n : nat) : list item :=
  map track_numbered (seq start n).

(** A user whose [playlists()] serves a script of pages of playlist
    identifiers, one page per call. *)
Definition inert_playlist {W} (id : string) : Playlist W :=
  {| pl_id := VStr id;
     pl_name := None;
     pl_num_tracks := None;
     pl_items := fun _ _ _ h => (Ok (Some []), h);
     pl_add := fun _ h => (Ok tt, h);
     pl_remove_by_index := fun _ h => (Ok tt, h) |}.

(** [n] playlist identifiers, numbered from [start]. *)
Definition playlist_ids (start n : nat) : list string :=
  map (fun i => "playlist_" ++ NilZero.string_of_uint (Nat.to_uint i)) (seq start n).

Definition scripted_user : User (list (list string)) :=
  {| u_playlists := fun h =>
       match remote h with
       | [] => (Ok (Some []), h)
       | page :: rest => (Ok (Some (map inert_playlist page)), Heap rest (cached_items h))
       end |}.

Definition scripted_session : Session (list (list string)) :=
  {| s_user := Some scripted_user;
     s_playlist := fun _ h => (Ok None, h);
     s_request := None |}.

(** A session over a remote playlist held as a list of items: [add] appends,
    [remove_by_index] deletes, [items] honours offset and limit.  The request
    hook answers with a response whose status check raises [failure] when
    there is one. *)
Definition list_playlist : Playlist (list item) :=
  {| pl_id := VStr "playlist_2";
     pl_name := Some (VStr "Workout");
     pl_num_tracks := Some (VInt 1);
     pl_items := fun _ offset limit h =>
       (Ok (Some (firstn limit (skipn offset (remote h)))), h);
     pl_add := fun ids h =>
       (Ok tt, Heap (remote h ++ map (fun i => Item Track (Some i)) ids)%list (cached_items h));
     pl_remove_by_index := fun i h =>
       (Ok tt, Heap (firstn i (remote h) ++ skipn (S i) (remote h))%list (cached_items h)) |}.

(** A playlist over the same kind of remote whose [items] refuses keyword
    arguments and reads its positional arguments as limit first and offset
    second. *)
Definition limit_first_playlist : Playlist (list item) :=
  {| pl_id := VStr "playlist_3";
     pl_name := None;
     pl_num_tracks := None;
     pl_items := fun style first second h =>
       match style with
       | Keyword =>
           (Raise (Exn TypeError "items() got an unexpected keyword argument 'offset'"), h)
       | Positional => (Ok (Some (firstn first (skipn second (remote h)))), h)
       end;
     pl_add := fun ids h =>
       (Ok tt, Heap (remote h ++ map (fun i => Item Track (Some i)) ids)%list (cached_items h));
     pl_remove_by_index := fun i h =>
       (Ok tt, Heap (firstn i (remote h) ++ skipn (S i) (remote h))%list (cached_items h)) |}.

Definition limit_first_session : Session (list item) :=
  {| s_user := None;
     s_playlist := fun _ h => (Ok (Some limit_first_playlist), h);
     s_request := None |}.

(** The remote playlist with no item and nothing cached. *)
Definition empty_playlist : heap (list item) := Heap [] None.

Definition status_check (failure : option exn) : ext (list item) unit :=
  fun h =>
    match failure with
    | Some e => (Raise e, h)
    | None => (Ok tt, h)
    end.

Definition hooked_response (failure : option exn) : Response (list item) :=
  {| raise_for_status := Some (status_check failure) |}.

Definition hooked_request (failure : option exn)
  : string -> string -> ext (list item) (Response (list item)) :=
  fun _ _ h => (Ok (hooked_response failure), h).

Definition hooked_session (failure : option exn) : Session (list item) :=
  {| s_user := None;
     s_playlist := fun id h =>
       if String.eqb id "playlist_2" then (Ok (Some list_playlist), h) else (Ok None, h);
     s_request := Some (hooked_request failure) |}.

(** ** Running computations *)

Section Running.

Context {W : Type}.

Implicit Types (h : heap W) (tr : list event) (e : exn).

Lemma call_run {A} (ev : res A -> event) (f : ext W A) h r h' :
  f h = (r, h') -> call ev f h = Run r h' [ev r].
Proof. intros Hf. unfold call. rewrite Hf. reflexivity. Qed.

Lemma bind_Ok {A B} (m : M W A) (k : A -> M W B) h a h' tr :
  m h = Run (Ok a) h' tr ->
  bind m k h = Run (result (k a h')) (final (k a h')) (tr ++ trace (k a h')).
Proof. intros Hm. unfold bind. rewrite Hm. reflexivity. Qed.

Lemma bind_Raise {A B} (m : M W A) (k : A -> M W B) h e h' tr :
  m h = Run (Raise e) h' tr -> bind m k h = Run (Raise e) h' tr.
Proof. intros Hm. unfold bind. rewrite Hm. reflexivity. Qed.

Lemma bind_OutOfFuel {A B} (m : M W A) (k : A -> M W B) h h' tr :
  m h = Run OutOfFuel h' tr -> bind m k h = Run OutOfFuel h' tr.
Proof. intros Hm. unfold bind. rewrite Hm. reflexivity. Qed.

Lemma try_Ok {A} (m : M W A) catches handler h a h' tr :
  m h = Run (Ok a) h' tr -> try_except m catches handler h = Run (Ok a) h' tr.
Proof. intros Hm. unfold try_except. rewrite Hm. reflexivity. Qed.

Lemma try_OutOfFuel {A} (m : M W A) catches handler h h' tr :
  m h = Run OutOfFuel h' tr -> try_except m catches handler h = Run OutOfFuel h' tr.
Proof. intros Hm. unfold try_except. rewrite Hm. reflexivity. Qed.

Lemma try_caught {A} (m : M W A) catches handler h e h' tr :
  m h = Run (Raise e) h' tr ->
  catches e = true ->
  try_except m catches handler h
  = Run (result (handler e h')) (final (handler e h')) (tr ++ trace (handler e h')).
Proof. intros Hm Hc. unfold try_except. rewrite Hm; simpl. rewrite Hc. reflexivity. Qed.

Lemma try_uncaught {A} (m : M W A) catches handler h e h' tr :
  m h = Run (Raise e) h' tr ->
  catches e = false ->
  try_except m catches handler h = Run (Raise e) h' tr.
Proof. intros Hm Hc. unfold try_except. rewrite Hm; simpl. rewrite Hc. reflexivity. Qed.

(** Logging an error and raising it again. *)
Lemma log_and_raise {A} (msg : string) e h :
  bind (logger_error msg) (fun _ => raise (A := A) e) h = Run (Raise e) h [EvLogError msg].
Proof. reflexivity. Qed.

Lemma run_eta {A} (r : run W A) : Run (result r) (final r) (trace r) = r.
Proof. destruct r; reflexivity. Qed.

End Running.

(** ** Properties of the gateway *)

Section GatewayFacts.

Context {W : Type} (int_str : string -> option Z).

Implicit Types (session : Session W) (playlist : Playlist W) (h : heap W).
Implicit Types (playlist_id : string) (track_id : pyval).

(** Normalisation has no effect on the heap, issues no call, and returns the
    integer when [int] gives one and the identifier itself otherwise. *)
Lemma normalize_id_run track_id h :
  normalize_id int_str track_id h
  = Run (Ok (match py_int int_str track_id with Ok z => VInt z | _ => track_id end)) h [].
Proof.
  unfold normalize_id, try_except, bind, lift, ret; simpl.
  destruct track_id as [|z|s]; simpl; try reflexivity.
  destruct (int_str s); reflexivity.
Qed.

(** C5. When [session.playlist(playlist_id)] yields no playlist object, both
    [add_track_to_playlist] and [remove_track_from_playlist] raise a
    [ValueError], which is not an instance of [RequestException]; nothing is
    logged and no mutation is issued. *)
Theorem playlist_not_found_raises_ValueError
    fuel session playlist_id track_id h h1 :
  s_playlist session playlist_id h = (Ok None, h1) ->
  let not_found := Exn ValueError ("Playlist " ++ playlist_id ++ " not found") in
  add_track_to_playlist int_str session playlist_id track_id h
    = Run (Raise not_found) h1 [EvSessionPlaylist playlist_id]
  /\ remove_track_from_playlist fuel session playlist_id track_id h
    = Run (Raise not_found) h1 [EvSessionPlaylist playlist_id]
  /\ isinstance_ValueError not_found = true
  /\ isinstance_RequestException not_found = false.
Proof.
  intros Hres not_found.
  unfold add_track_to_playlist, remove_track_from_playlist, try_except, bind, call, raise.
  rewrite Hres; simpl. repeat split; reflexivity.
Qed.

End GatewayFacts.

Lemma playlist_not_found_witness :
  let not_found := Exn ValueError "Playlist playlist_9 not found" in
  add_track_to_playlist ascii_decimal (hooked_session None) "playlist_9" (VStr "77")
      empty_playlist
    = Run (Raise not_found) empty_playlist [EvSessionPlaylist "playlist_9"]
  /\ remove_track_from_playlist 5 (hooked_session None) "playlist_9" (VStr "77")
      empty_playlist
    = Run (Raise not_found) empty_playlist [EvSessionPlaylist "playlist_9"]
  /\ isinstance_ValueError not_found = true
  /\ isinstance_RequestException not_found = false.
Proof.
  apply (playlist_not_found_raises_ValueError ascii_decimal 5 (hooked_session None)
           "playlist_9" (VStr "77") empty_playlist empty_playlist).
  reflexivity.
Defined.

(** *** Adding a track *)

Section AddTrack.

Context {W : Type} (int_str : string -> option Z).

Implicit Types (session : Session W) (playlist : Playlist W) (h : heap W).
Implicit Types (playlist_id : string) (track_id : pyval).

(** The hook never calls [playlist.add]. *)
Lemma request_hook_no_add session playlist_id h :
  List.filter is_add_event (trace (request_hook session playlist_id h)) = [].
Proof.
  unfold request_hook. destruct (s_request session) as [req|]; [|reflexivity].
  unfold try_except, bind, call, ret, raise; simpl.
  destruct (req _ _ h) as [[resp|e|] h2]; simpl.
  - destruct (raise_for_status resp) as [check|]; simpl; [|reflexivity].
    destruct (check h2) as [[[]|e|] h3]; simpl; try reflexivity.
    destruct (isinstance_Exception e); reflexivity.
  - destruct (isinstance_Exception e); reflexivity.
  - reflexivity.
Qed.

(** A status check that raises turns into a [RequestException] raised by the
    hook. *)
Lemma request_hook_status_failure session playlist_id h1 req resp h2 check e h3 :
  s_request session = Some req ->
  req "POST" ("/playlists/" ++ playlist_id ++ "/tracks") h1 = (Ok resp, h2) ->
  raise_for_status resp = Some check ->
  check h2 = (Raise e, h3) ->
  isinstance_Exception e = true ->
  request_hook session playlist_id h1
  = Run (Raise (Exn RequestException (exn_msg e))) h3
        [EvRequest "POST" ("/playlists/" ++ playlist_id ++ "/tracks"); EvRaiseForStatus].
Proof.
  intros Hreq Hpost Hattr Hcheck Hexc.
  unfold request_hook. rewrite Hreq.
  rewrite (try_caught _ _ _ _ e h3
             [EvRequest "POST" ("/playlists/" ++ playlist_id ++ "/tracks"); EvRaiseForStatus]).
  - reflexivity.
  - rewrite (bind_Ok _ _ _ _ _ _ (call_run _ _ _ _ _ Hpost)).
    rewrite Hattr, (call_run _ _ _ _ _ Hcheck). reflexivity.
  - exact Hexc.
Qed.

(** The run of [add_track_to_playlist] once the playlist is resolved: the
    hook, then [playlist.add] on the normalised identifier, then the handler
    for [RequestException]. *)
Lemma add_track_resolved session playlist_id track_id h playlist h1 :
  s_playlist session playlist_id h = (Ok (Some playlist), h1) ->
  let norm_id := match py_int int_str track_id with Ok z => VInt z | _ => track_id end in
  add_track_to_playlist int_str session playlist_id track_id h
  = try_except
      (fun h0 =>
         let r := bind (request_hook session playlist_id)
                       (fun _ => call (fun _ => EvAdd [norm_id]) (pl_add playlist [norm_id])) h1 in
         Run (result r) (final r) (EvSessionPlaylist playlist_id :: trace r))
      isinstance_RequestException
      (fun e =>
         bind (logger_error ("Failed to add track " ++ py_str track_id ++ " to playlist "
                              ++ playlist_id ++ ": " ++ exn_msg e))
              (fun _ => raise e)) h.
Proof.
  intros Hpl norm_id. unfold add_track_to_playlist, try_except.
  rewrite (bind_Ok _ _ _ _ _ _ (call_run _ _ _ _ _ Hpl)).
  rewrite (bind_Ok _ _ _ _ _ _ (normalize_id_run int_str track_id h1)).
  reflexivity.
Qed.

(** C1. With a callable request hook, when the status check of the response
    raises an exception (any [Exception], so any HTTP-level failure such as the
    [HTTPError] of a non-2xx status), [add_track_to_playlist] raises a
    [RequestException] carrying the message of that exception, and the trace
    of the run holds the playlist lookup, the request, the status check and
    the error log line, and no call to [playlist.add]. *)
Theorem add_track_status_failure_raises_before_add
    session playlist_id track_id h req playlist h1 resp h2 check e h3 :
  s_request session = Some req ->
  s_playlist session playlist_id h = (Ok (Some playlist), h1) ->
  req "POST" ("/playlists/" ++ playlist_id ++ "/tracks") h1 = (Ok resp, h2) ->
  raise_for_status resp = Some check ->
  check h2 = (Raise e, h3) ->
  isinstance_Exception e = true ->
  let r := add_track_to_playlist int_str session playlist_id track_id h in
  result r = Raise (Exn RequestException (exn_msg e))
  /\ isinstance_RequestException (Exn RequestException (exn_msg e)) = true
  /\ final r = h3
  /\ trace r =
       [EvSessionPlaylist playlist_id;
        EvRequest "POST" ("/playlists/" ++ playlist_id ++ "/tracks");
        EvRaiseForStatus;
        EvLogError ("Failed to add track " ++ py_str track_id ++ " to playlist "
                    ++ playlist_id ++ ": " ++ exn_msg e)]
  /\ (forall ids, ~ In (EvAdd ids) (trace r)).
Proof.
  intros Hreq Hpl Hpost Hattr Hcheck Hexc r.
  assert (Hrun : r = Run (Raise (Exn RequestException (exn_msg e))) h3
            [EvSessionPlaylist playlist_id;
             EvRequest "POST" ("/playlists/" ++ playlist_id ++ "/tracks");
             EvRaiseForStatus;
             EvLogError ("Failed to add track " ++ py_str track_id ++ " to playlist "
                         ++ playlist_id ++ ": " ++ exn_msg e)]).
  { subst r. rewrite (add_track_resolved _ _ _ _ _ _ Hpl).
    pose proof (request_hook_status_failure _ _ _ _ _ _ _ _ _ Hreq Hpost Hattr Hcheck Hexc)
      as Hhook.
    rewrite (try_caught _ _ _ _ (Exn RequestException (exn_msg e)) h3
               [EvSessionPlaylist playlist_id;
                EvRequest "POST" ("/playlists/" ++ playlist_id ++ "/tracks");
                EvRaiseForStatus]).
    - rewrite log_and_raise. reflexivity.
    - rewrite (bind_Raise _ _ _ _ _ _ Hhook). reflexivity.
    - reflexivity. }
  rewrite Hrun; cbn [result final trace]. repeat split.
  intros ids [H|[H|[H|[H|[]]]]]; discriminate H.
Qed.

(** The calls to [playlist.add] in a run of [add_track_to_playlist] that
    resolved the playlist: one call, on the normalised identifier, when the
    hook went through, and none otherwise. *)
Lemma add_track_add_events session playlist_id track_id h playlist h1 :
  s_playlist session playlist_id h = (Ok (Some playlist), h1) ->
  let norm_id := match py_int int_str track_id with Ok z => VInt z | _ => track_id end in
  List.filter is_add_event
    (trace (add_track_to_playlist int_str session playlist_id track_id h))
  = match result (request_hook session playlist_id h1) with
    | Ok _ => [EvAdd [norm_id]]
    | _ => []
    end.
Proof.
  intros Hpl norm_id. rewrite (add_track_resolved _ _ _ _ _ _ Hpl). fold norm_id.
  pose proof (request_hook_no_add session playlist_id h1) as Hhook.
  unfold try_except, bind, call, logger_error, raise.
  destruct (request_hook session playlist_id h1) as [[[]|e|] h2 tr];
    cbn [result final trace] in *.
  - destruct (pl_add playlist [norm_id] h2) as [[[]|e|] h3]; cbn [result final trace];
      try destruct (isinstance_RequestException e); cbn [result final trace];
      repeat (rewrite ?List.filter_app; cbn [List.filter is_add_event]);
      rewrite Hhook; reflexivity.
  - destruct (isinstance_RequestException e); cbn [result final trace];
      repeat (rewrite ?List.filter_app; cbn [List.filter is_add_event]);
      rewrite Hhook; reflexivity.
  - cbn [List.filter is_add_event]. exact Hhook.
Qed.

(** When the playlist is not resolved, [playlist.add] is not called. *)
Lemma add_track_unresolved_no_add session playlist_id track_id h :
  (forall playlist h1, s_playlist session playlist_id h <> (Ok (Some playlist), h1)) ->
  List.filter is_add_event
    (trace (add_track_to_playlist int_str session playlist_id track_id h)) = [].
Proof.
  intros Hno.
  unfold add_track_to_playlist, try_except, bind, call, raise, logger_error.
  destruct (s_playlist session playlist_id h) as [[[playlist|]|e|] h1] eqn:Hpl;
    cbn [result final trace].
  - exfalso. apply (Hno playlist h1). reflexivity.
  - reflexivity.
  - destruct (isinstance_RequestException e); reflexivity.
  - reflexivity.
Qed.

(** C6. Normalisation of the identifier always returns, never raises, and
    gives [int(track_id)] when [int] accepts the identifier and the identifier
    unchanged when it does not; whenever [add_track_to_playlist] calls
    [playlist.add], it passes the one-element list holding that value; and it
    does call it, once, when the playlist is resolved and the request hook has
    gone through. *)
Theorem add_track_passes_normalized_id session playlist_id track_id h :
  exists norm_id,
    normalize_id int_str track_id h = Run (Ok norm_id) h []
    /\ (forall z, py_int int_str track_id = Ok z -> norm_id = VInt z)
    /\ ((forall z, py_int int_str track_id <> Ok z) -> norm_id = track_id)
    /\ (forall ids,
          In (EvAdd ids) (trace (add_track_to_playlist int_str session playlist_id track_id h))
          -> ids = [norm_id])
    /\ (forall playlist h1,
          s_playlist session playlist_id h = (Ok (Some playlist), h1) ->
          result (request_hook session playlist_id h1) = Ok tt ->
          List.filter is_add_event
            (trace (add_track_to_playlist int_str session playlist_id track_id h))
          = [EvAdd [norm_id]]).
Proof.
  exists (match py_int int_str track_id with Ok z => VInt z | _ => track_id end).
  split; [apply normalize_id_run|].
  split; [intros z Hz; rewrite Hz; reflexivity|].
  split.
  { intros Hno. destruct (py_int int_str track_id) as [z| |]; try reflexivity.
    exfalso; apply (Hno z); reflexivity. }
  split.
  - intros ids Hin.
    assert (Hf : In (EvAdd ids)
               (List.filter is_add_event
                  (trace (add_track_to_playlist int_str session playlist_id track_id h)))).
    { apply filter_In. split; [exact Hin | reflexivity]. }
    destruct (s_playlist session playlist_id h) as [[[playlist|]|e|] h1] eqn:Hpl.
    + rewrite (add_track_add_events _ _ _ _ _ _ Hpl) in Hf.
      destruct (result (request_hook session playlist_id h1)); cbn in Hf.
      * destruct Hf as [Heq|[]]. inversion Heq; reflexivity.
      * destruct Hf.
      * destruct Hf.
    + rewrite add_track_unresolved_no_add in Hf; [destruct Hf|].
      intros playlist h2 Heq. rewrite Hpl in Heq. discriminate Heq.
    + rewrite add_track_unresolved_no_add in Hf; [destruct Hf|].
      intros playlist h2 Heq. rewrite Hpl in Heq. discriminate Heq.
    + rewrite add_track_unresolved_no_add in Hf; [destruct Hf|].
      intros playlist h2 Heq. rewrite Hpl in Heq. discriminate Heq.
  - intros playlist h1 Hpl Hhook.
    rewrite (add_track_add_events _ _ _ _ _ _ Hpl), Hhook. reflexivity.
Qed.

End AddTrack.

Lemma add_track_status_failure_witness :
  let e := Exn HTTPError "500 Server Error" in
  let r := add_track_to_playlist ascii_decimal (hooked_session (Some e)) "playlist_2"
             (VStr "77") empty_playlist in
  result r = Raise (Exn RequestException (exn_msg e))
  /\ isinstance_RequestException (Exn RequestException (exn_msg e)) = true
  /\ final r = empty_playlist
  /\ trace r =
       [EvSessionPlaylist "playlist_2";
        EvRequest "POST" ("/playlists/" ++ "playlist_2" ++ "/tracks");
        EvRaiseForStatus;
        EvLogError ("Failed to add track " ++ py_str (VStr "77") ++ " to playlist "
                    ++ "playlist_2" ++ ": " ++ exn_msg e)]
  /\ (forall ids, ~ In (EvAdd ids) (trace r)).
Proof.
  intros e.
  apply (add_track_status_failure_raises_before_add ascii_decimal
           (hooked_session (Some e)) "playlist_2" (VStr "77") empty_playlist
           (hooked_request (Some e)) list_playlist empty_playlist
           (hooked_response (Some e)) empty_playlist
           (status_check (Some e)) e empty_playlist);
    reflexivity.
Defined.

Lemma add_track_passes_normalized_id_witness :
  exists norm_id,
    normalize_id ascii_decimal (VStr "77") empty_playlist = Run (Ok norm_id) empty_playlist []
    /\ (forall z, py_int ascii_decimal (VStr "77") = Ok z -> norm_id = VInt z)
    /\ ((forall z, py_int ascii_decimal (VStr "77") <> Ok z) -> norm_id = VStr "77")
    /\ (forall ids,
          In (EvAdd ids)
             (trace (add_track_to_playlist ascii_decimal (hooked_session None) "playlist_2"
                       (VStr "77") empty_playlist))
          -> ids = [norm_id])
    /\ (forall playlist h1,
          s_playlist (hooked_session None) "playlist_2" empty_playlist
            = (Ok (Some playlist), h1) ->
          result (request_hook (hooked_session None) "playlist_2" h1) = Ok tt ->
          List.filter is_add_event
            (trace (add_track_to_playlist ascii_decimal (hooked_session None) "playlist_2"
                      (VStr "77") empty_playlist))
          = [EvAdd [norm_id]]).
Proof.
  exact (add_track_passes_normalized_id ascii_decimal (hooked_session None) "playlist_2"
           (VStr "77") empty_playlist).
Defined.

(** On the list-backed session, adding the track ["77"] appends the integer
    [77], and adding ["track_uuid_1"] appends the string itself. *)
Example add_track_integer_id :
  add_track_to_playlist ascii_decimal (hooked_session None) "playlist_2" (VStr "77")
    empty_playlist
  = Run (Ok tt) (Heap [Item Track (Some (VInt 77))] None)
      [EvSessionPlaylist "playlist_2";
       EvRequest "POST" "/playlists/playlist_2/tracks";
       EvRaiseForStatus;
       EvAdd [VInt 77]].
Proof. reflexivity. Qed.

Example add_track_string_id :
  add_track_to_playlist ascii_decimal (hooked_session None) "playlist_2"
    (VStr "track_uuid_1") empty_playlist
  = Run (Ok tt) (Heap [Item Track (Some (VStr "track_uuid_1"))] None)
      [EvSessionPlaylist "playlist_2";
       EvRequest "POST" "/playlists/playlist_2/tracks";
       EvRaiseForStatus;
       EvAdd [VStr "track_uuid_1"]].
Proof. reflexivity. Qed.

(** *** Pagination *)

Section Pagination.

Context {W : Type}.

Local Open Scope list_scope.

Implicit Types (playlist : Playlist W) (h : heap W) (keep : list item -> list item).

Lemma kept_app keep tr1 tr2 : kept keep (tr1 ++ tr2) = kept keep tr1 ++ kept keep tr2.
Proof. unfold kept. apply flat_map_app. Qed.

Lemma kept_filter (f : item -> bool) tr :
  kept (List.filter f) tr = List.filter f (delivered tr).
Proof.
  unfold kept, delivered. induction tr as [|ev tr IH]; [reflexivity|].
  cbn [flat_map]. rewrite List.filter_app, IH. reflexivity.
Qed.

Lemma flat_map_filter_concat (f : item -> bool) (pages : list (list item)) :
  flat_map (List.filter f) pages = List.filter f (concat pages).
Proof.
  induction pages as [|page rest IH]; [reflexivity|].
  cbn [flat_map concat]. rewrite List.filter_app, IH. reflexivity.
Qed.

Lemma kept_all tr : kept (fun batch => batch) tr = delivered tr.
Proof. reflexivity. Qed.

(** A page request leaves only [items] events, and what it returns is what
    those events delivered. *)
Lemma fetch_batch_trace playlist keep offset limit h :
  keep [] = [] ->
  forallb is_items_event (trace (fetch_batch playlist offset limit h)) = true
  /\ (forall batch,
        result (fetch_batch playlist offset limit h) = Ok batch ->
        kept keep (trace (fetch_batch playlist offset limit h)) = keep (elements_of batch)).
Proof.
  intros Hkeep. unfold fetch_batch, try_except, call, kept.
  destruct (pl_items playlist Keyword offset limit h) as [[b|e|] h1]; cbn [result final trace].
  - split; [reflexivity|]. intros batch Hb. inversion Hb; subst.
    destruct batch; cbn; rewrite ?app_nil_r; auto.
  - destruct (isinstance_TypeError e); cbn [result final trace].
    + destruct (pl_items playlist Positional offset limit h1) as [[b|e'|] h2];
        cbn [result final trace]; (split; [reflexivity|]); intros batch Hb;
        inversion Hb; subst.
      destruct batch; cbn; rewrite ?Hkeep, ?app_nil_r; auto.
    + split; [reflexivity|]. intros batch Hb. discriminate Hb.
  - split; [reflexivity|]. intros batch Hb. discriminate Hb.
Qed.

(** The loop leaves only [items] events, and what it returns is the
    accumulator followed by what it kept of each delivered page, in the order
    of delivery. *)
Lemma items_loop_trace fuel playlist keep limit :
  keep [] = [] ->
  forall offset all_items h,
    forallb is_items_event (trace (items_loop fuel playlist keep limit offset all_items h))
      = true
    /\ (forall items,
          result (items_loop fuel playlist keep limit offset all_items h) = Ok items ->
          items = all_items
                  ++ kept keep (trace (items_loop fuel playlist keep limit offset all_items h))).
Proof.
  intros Hkeep. induction fuel as [|fuel IH]; intros offset all_items h.
  - cbn. split; [reflexivity|]. intros items Hr. discriminate Hr.
  - cbn [items_loop]. unfold bind.
    destruct (fetch_batch_trace playlist keep offset limit h Hkeep) as [Hev Hdel].
    destruct (fetch_batch playlist offset limit h) as [[batch|e|] h1 tr];
      cbn [result final trace] in *.
    + specialize (Hdel batch eq_refl).
      destruct (truthy batch) eqn:Htruthy; cbn [negb].
      * destruct (Nat.ltb (length (elements_of batch)) limit).
        -- cbn [ret result final trace]. rewrite app_nil_r. split; [exact Hev|].
           intros items Hr. inversion Hr; subst. rewrite Hdel. reflexivity.
        -- destruct (IH (offset + length (elements_of batch))
                        (all_items ++ keep (elements_of batch)) h1) as [IHev IHres].
           split.
           ++ rewrite forallb_app, Hev, IHev. reflexivity.
           ++ intros items Hr. rewrite kept_app, Hdel, app_assoc. apply IHres, Hr.
      * cbn [ret result final trace]. rewrite app_nil_r. split; [exact Hev|].
        intros items Hr. inversion Hr; subst. rewrite Hdel.
        destruct batch as [[|it l]|]; try discriminate Htruthy;
          cbn [elements_of]; rewrite Hkeep, app_nil_r; reflexivity.
    + split; [exact Hev|]. intros items Hr. discriminate Hr.
    + split; [exact Hev|]. intros items Hr. discriminate Hr.
Qed.

(** One iteration of the loop, once the page request has returned. *)
Lemma items_loop_step fuel playlist keep limit offset all_items h batch h1 tr :
  fetch_batch playlist offset limit h = Run (Ok batch) h1 tr ->
  items_loop (S fuel) playlist keep limit offset all_items h
  = let next :=
        if negb (truthy batch) then ret all_items
        else if Nat.ltb (length (elements_of batch)) limit
             then ret (all_items ++ keep (elements_of batch))
             else items_loop fuel playlist keep limit (offset + length (elements_of batch))
                    (all_items ++ keep (elements_of batch)) in
    Run (result (next h1)) (final (next h1)) (tr ++ trace (next h1)).
Proof. intros Hb. cbn [items_loop]. rewrite (bind_Ok _ _ _ _ _ _ Hb). reflexivity. Qed.

End Pagination.

Section ScriptedSource.

Local Open Scope list_scope.

Implicit Types (keep : list item -> list item).

(** A page request to a scripted source takes the next page off the
    script. *)
Lemma fetch_batch_scripted offset limit pages cached :
  fetch_batch scripted_playlist offset limit (Heap pages cached)
  = Run (Ok (Some (hd [] pages))) (Heap (tl pages) cached)
        [EvItems Keyword offset limit (Ok (Some (hd [] pages)))].
Proof. destruct pages; reflexivity. Qed.

(** On a scripted source the loop returns as soon as it has more iterations
    than the script has pages: it reads the pages up to the first short one
    and leaves the rest unrequested. *)
Lemma items_loop_scripted keep limit :
  keep [] = [] ->
  0 < limit ->
  forall fuel pages offset all_items cached,
    length pages < fuel ->
    let r := items_loop fuel scripted_playlist keep limit offset all_items
               (Heap pages cached) in
    result r = Ok (all_items ++ flat_map keep (pages_read limit pages))
    /\ remote (final r) = skipn (length (pages_read limit pages)) pages.
Proof.
  intros Hkeep Hlimit. induction fuel as [|fuel IH]; intros pages offset all_items cached Hfuel.
  - inversion Hfuel.
  - rewrite (items_loop_step _ _ _ _ _ _ _ _ _ _
               (fetch_batch_scripted offset limit pages cached)).
    destruct pages as [|page rest]; cbn [hd tl].
    + cbn. rewrite app_nil_r. split; reflexivity.
    + cbn [pages_read elements_of].
      destruct (Nat.ltb (length page) limit) eqn:Hshort.
      * destruct page as [|it page']; cbn [truthy negb ret result final trace];
          cbn [flat_map length skipn]; rewrite ?Hkeep, ?app_nil_r; split; reflexivity.
      * destruct page as [|it page'].
        { apply Nat.ltb_ge in Hshort. cbn in Hshort. lia. }
        cbn [truthy negb]. cbn [length] in Hfuel.
        destruct (IH rest (offset + length (it :: page'))
                     (all_items ++ keep (it :: page')) cached ltac:(lia)) as [IHres IHrem].
        cbn [length] in IHres, IHrem.
        cbn [result final trace flat_map length skipn].
        rewrite IHres, IHrem, app_assoc. split; reflexivity.
Qed.

End ScriptedSource.

(** *** An offset-honouring source *)

Section ListPlaylist.

Local Open Scope list_scope.

Implicit Types (keep : list item -> list item) (items : list item).

Lemma firstn_extend items (offset n : nat) :
  offset <= length items ->
  firstn (offset + n) items = firstn offset items ++ firstn n (skipn offset items).
Proof.
  intros Hle. rewrite <- (firstn_skipn offset items) at 1.
  rewrite <- (firstn_length_le items Hle) at 1. apply firstn_app_2.
Qed.

(** A page request to the list-backed playlist returns the slice asked for
    and changes nothing. *)
Lemma fetch_batch_list_playlist offset limit items cached :
  fetch_batch list_playlist offset limit (Heap items cached)
  = Run (Ok (Some (firstn limit (skipn offset items)))) (Heap items cached)
        [EvItems Keyword offset limit (Ok (Some (firstn limit (skipn offset items))))].
Proof. reflexivity. Qed.

(** On the list-backed playlist the loop returns what it keeps of the whole
    list, once allowed more iterations than the list has full pages. *)
Lemma items_loop_list_playlist keep :
  keep [] = [] ->
  (forall a b, keep (a ++ b) = keep a ++ keep b) ->
  forall fuel items offset cached,
    offset <= length items ->
    (length items - offset) / 100 < fuel ->
    let r := items_loop fuel list_playlist keep 100 offset (keep (firstn offset items))
               (Heap items cached) in
    result r = Ok (keep items) /\ final r = Heap items cached.
Proof.
  intros Hnil Happ. induction fuel as [|fuel IH]; intros items offset cached Hle Hfuel.
  - inversion Hfuel.
  - rewrite (items_loop_step _ _ _ _ _ _ _ _ _ _
               (fetch_batch_list_playlist offset 100 items cached)).
    cbn [elements_of].
    pose proof (length_firstn 100 (skipn offset items)) as Hlen.
    rewrite length_skipn in Hlen.
    destruct (firstn 100 (skipn offset items)) as [|it batch] eqn:Hbatch.
    + cbn [truthy negb ret result final trace].
      cbn [length] in Hlen.
      assert (Hall : offset = length items) by lia.
      subst offset. rewrite firstn_all. split; reflexivity.
    + cbn [truthy negb]. rewrite <- Hbatch in *. clear Hbatch.
      destruct (Nat.ltb (length (firstn 100 (skipn offset items))) 100) eqn:Hshort.
      * apply Nat.ltb_lt in Hshort. cbn [ret result final trace].
        rewrite <- Happ.
        rewrite (firstn_all2 (n := 100) (skipn offset items))
          by (rewrite length_skipn; lia).
        rewrite firstn_skipn. split; reflexivity.
      * apply Nat.ltb_ge in Hshort.
        rewrite <- Happ, <- (firstn_extend items offset 100 Hle).
        rewrite Hlen.
        replace (Init.Nat.min 100 (length items - offset)) with 100 by lia.
        assert (Hfuel' : (length items - (offset + 100)) / 100 < fuel).
        { assert (Hdiv : (length items - offset) / 100
                         = S ((length items - (offset + 100)) / 100)).
          { replace (length items - offset) with (1 * 100 + (length items - (offset + 100)))
              by lia.
            rewrite Nat.div_add_l by lia. reflexivity. }
          lia. }
        destruct (IH items (offset + 100) cached ltac:(lia) Hfuel') as [IHres IHfin].
        cbn [result final trace]. rewrite IHres, IHfin. split; reflexivity.
Qed.

End ListPlaylist.

(** *** Fetching the items of a playlist *)

Section PlaylistItems.

Context {W : Type}.

Local Open Scope list_scope.

Implicit Types (playlist : Playlist W) (h : heap W).

(** [get_playlist_items] in terms of its loop, started on a heap whose cached
    item list has been reset. *)
Lemma get_playlist_items_run fuel playlist h :
  let r := items_loop fuel playlist (List.filter is_Track) 100 0 []
             (Heap (remote h) None) in
  get_playlist_items fuel playlist h
  = match result r with
    | Raise e =>
        if isinstance_RequestException e
        then Run (Raise e) (final r)
               (EvSetItemsNone :: trace r
                ++ [EvLogError ("Failed to fetch playlist items for "
                                ++ py_str (pl_id playlist) ++ ": " ++ exn_msg e)])
        else Run (Raise e) (final r) (EvSetItemsNone :: trace r)
    | res => Run res (final r) (EvSetItemsNone :: trace r)
    end.
Proof.
  intros r. unfold get_playlist_items, try_except, bind, set_items_none, logger_error, raise.
  cbn [result final trace]. fold r.
  destruct r as [[items|e|] h1 tr]; cbn [result final trace]; reflexivity.
Qed.

End PlaylistItems.

(** C7. [get_playlist_items] resets the cached item list of the playlist
    before it requests anything, so that its run does not depend on what was
    cached; when it returns, its result is made of the [Track] instances of
    the pages delivered, in the order of delivery, and of nothing else.  It
    does return: on a scripted source once allowed more iterations than the
    script has pages, and on the list-backed playlist, where the result is the
    [Track] instances of the whole list, once allowed more iterations than the
    list has full pages. *)
Theorem get_playlist_items_fresh_tracks_in_order :
  (forall W fuel (playlist : Playlist W) (h : heap W),
      get_playlist_items fuel playlist h
        = get_playlist_items fuel playlist (Heap (remote h) None)
      /\ (exists tr, trace (get_playlist_items fuel playlist h) = EvSetItemsNone :: tr)
      /\ (forall tracks,
            result (get_playlist_items fuel playlist h) = Ok tracks ->
            exists tr,
              trace (get_playlist_items fuel playlist h) = EvSetItemsNone :: tr
              /\ forallb is_items_event tr = true
              /\ tracks = List.filter is_Track (delivered tr)
              /\ Forall (fun it => is_Track it = true) tracks))
  /\ (forall fuel pages cached,
        length pages < fuel ->
        result (get_playlist_items fuel scripted_playlist (Heap pages cached))
        = Ok (List.filter is_Track (concat (pages_read 100 pages))))
  /\ (forall fuel items cached,
        length items / 100 < fuel ->
        result (get_playlist_items fuel list_playlist (Heap items cached))
        = Ok (List.filter is_Track items)).
Proof.
  split; [|split].
  - intros W fuel playlist h. split; [|split].
    + rewrite !get_playlist_items_run. reflexivity.
    + rewrite get_playlist_items_run. cbv zeta.
      destruct (result (items_loop fuel playlist (List.filter is_Track) 100 0 []
                          (Heap (remote h) None))) as [items|e|];
        try destruct (isinstance_RequestException e); eexists; reflexivity.
    + intros tracks. rewrite get_playlist_items_run. cbv zeta.
      destruct (items_loop_trace fuel playlist (List.filter is_Track) 100 eq_refl 0 []
                  (Heap (remote h) None)) as [Hev Hres].
      destruct (items_loop fuel playlist (List.filter is_Track) 100 0 []
                  (Heap (remote h) None)) as [[items|e|] h1 tr]; cbn [result final trace] in *.
      * intros Hr. inversion Hr; subst tracks. exists tr.
        split; [reflexivity|]. split; [exact Hev|].
        rewrite (Hres items eq_refl), kept_filter. cbn [app].
        split; [reflexivity|]. apply List.Forall_forall. intros it Hin.
        apply filter_In in Hin. apply Hin.
      * destruct (isinstance_RequestException e); intros Hr; discriminate Hr.
      * intros Hr; discriminate Hr.
  - intros fuel pages cached Hfuel. rewrite get_playlist_items_run. cbv zeta.
    destruct (items_loop_scripted (List.filter is_Track) 100 eq_refl ltac:(lia)
                fuel pages 0 [] None Hfuel) as [Hres _].
    cbn [remote]. rewrite Hres. cbn [app result].
    rewrite flat_map_filter_concat. reflexivity.
  - intros fuel items cached Hfuel. rewrite get_playlist_items_run. cbv zeta.
    pose proof (items_loop_list_playlist (List.filter is_Track) eq_refl
                  (List.filter_app is_Track) fuel items 0 None
                  ltac:(lia) ltac:(rewrite Nat.sub_0_r; exact Hfuel)) as Hloop.
    cbv zeta in Hloop.
    change (List.filter is_Track (firstn 0 items)) with (@nil item) in Hloop.
    destruct Hloop as [Hres _].
    cbn [remote]. rewrite Hres. reflexivity.
Qed.

Lemma get_playlist_items_fresh_tracks_in_order_witness :
  result (get_playlist_items 3 scripted_playlist
            (Heap [[Item Track (Some (VInt 1)); Item Video (Some (VInt 2))];
                   [Item Track (Some (VInt 3))]]
                  (Some [Item Track (Some (VInt 9))])))
  = Ok (List.filter is_Track
          (concat (pages_read 100
                     [[Item Track (Some (VInt 1)); Item Video (Some (VInt 2))];
                      [Item Track (Some (VInt 3))]]))).
Proof.
  apply (proj1 (proj2 get_playlist_items_fresh_tracks_in_order)). cbn. lia.
Defined.

(** A playlist of a track, a video and a track, served in one page: the
    video is left out and the order is kept. *)
Example get_playlist_items_skips_video :
  result (get_playlist_items 3 scripted_playlist
            (Heap [[Item Track (Some (VInt 1)); Item Video (Some (VInt 2));
                    Item Track (Some (VInt 3))]] None))
  = Ok [Item Track (Some (VInt 1)); Item Track (Some (VInt 3))].
Proof. reflexivity. Qed.

(** *** Exhaustion of the pages *)

(** For C3, as stated: on a source that serves 75 tracks in pages of 50 then
    25, [get_playlist_items] returns the 50 tracks of the first page and not
    75 items, whatever number of iterations it is allowed. *)
Lemma get_playlist_items_two_short_pages_counterexample :
  let r := get_playlist_items 10 scripted_playlist
             (Heap [tracks_from 0 50; tracks_from 50 25] None) in
  result r = Ok (tracks_from 0 50)
  /\ remote (final r) = [tracks_from 50 25]
  /\ ~ (exists tracks, result r = Ok tracks /\ length tracks = 75).
Proof.
  assert (Hr : result (get_playlist_items 10 scripted_playlist
                         (Heap [tracks_from 0 50; tracks_from 50 25] None))
               = Ok (tracks_from 0 50)) by (vm_compute; reflexivity).
  cbv zeta. split; [exact Hr|]. split; [vm_compute; reflexivity|].
  intros (tracks & Htracks & Hlen). rewrite Hr in Htracks.
  inversion Htracks; subst tracks. vm_compute in Hlen. discriminate Hlen.
Qed.

(** *** Fetching the playlists of the user *)

(** For C4, as stated: on a source that serves 75 playlists in pages of 50
    then 25, [get_user_playlists] issues one call, returns the 50 playlists of
    the first page, and leaves the second page unrequested. *)
Lemma get_user_playlists_first_page_only_counterexample :
  let r := get_user_playlists scripted_session
             (Heap [playlist_ids 0 50; playlist_ids 50 25] None) in
  result r = Ok (map inert_playlist (playlist_ids 0 50))
  /\ trace r = [EvUserPlaylists]
  /\ remote (final r) = [playlist_ids 50 25]
  /\ ~ (exists playlists, result r = Ok playlists /\ length playlists = 75).
Proof.
  assert (Hr : get_user_playlists scripted_session
                 (Heap [playlist_ids 0 50; playlist_ids 50 25] None)
               = Run (Ok (map inert_playlist (playlist_ids 0 50)))
                     (Heap [playlist_ids 50 25] None) [EvUserPlaylists])
    by reflexivity.
  cbv zeta. rewrite Hr. cbn [result final trace remote].
  repeat split.
  intros (playlists & Hp & Hlen). inversion Hp; subst playlists.
  vm_compute in Hlen. discriminate Hlen.
Qed.

Section UserPlaylists.

Context {W : Type}.

Implicit Types (session : Session W) (user : User W) (h : heap W).

(** C4, amended. [get_user_playlists] issues exactly one call to
    [session.user.playlists()], with no offset, limit or total, and returns
    the list that call yields (the empty list when the call yields [None]);
    an exception of the call is raised to the caller.  Whether that is all of
    the user's playlists is decided by that one call. *)
Theorem get_user_playlists_single_call session user h r h1 :
  s_user session = Some user ->
  u_playlists user h = (r, h1) ->
  let run := get_user_playlists session h in
  final run = h1
  /\ List.filter is_user_playlists_event (trace run) = [EvUserPlaylists]
  /\ (forall playlists, r = Ok playlists -> run = Run (Ok (elements_of playlists)) h1
                                                     [EvUserPlaylists])
  /\ (forall e, r = Raise e -> result run = Raise e).
Proof.
  intros Huser Hcall. unfold get_user_playlists. rewrite Huser.
  unfold try_except, bind, call, ret, raise, logger_error. rewrite Hcall.
  destruct r as [playlists|e|]; cbn [result final trace].
  - repeat split; try (intros e He; discriminate He).
    intros playlists' Hp. inversion Hp; subst playlists'.
    destruct playlists as [[|p l]|]; reflexivity.
  - destruct (isinstance_RequestException e); cbn [result final trace];
      repeat split; try (intros playlists Hp; discriminate Hp);
      intros e' He; inversion He; reflexivity.
  - repeat split; try (intros playlists Hp; discriminate Hp);
      intros e' He; discriminate He.
Qed.

End UserPlaylists.

Lemma get_user_playlists_single_call_witness :
  let first_page : option (list (Playlist (list (list string)))) :=
    Some (map inert_playlist (playlist_ids 0 2)) in
  let run := get_user_playlists scripted_session
               (Heap [playlist_ids 0 2; playlist_ids 2 1] None) in
  final run = Heap [playlist_ids 2 1] None
  /\ List.filter is_user_playlists_event (trace run) = [EvUserPlaylists]
  /\ (forall playlists,
        Ok first_page = Ok playlists ->
        run = Run (Ok (elements_of playlists)) (Heap [playlist_ids 2 1] None)
                  [EvUserPlaylists])
  /\ (forall e, Ok first_page = Raise e -> result run = Raise e).
Proof.
  intros first_page.
  apply (get_user_playlists_single_call scripted_session scripted_user
           (Heap [playlist_ids 0 2; playlist_ids 2 1] None)
           (Ok first_page) (Heap [playlist_ids 2 1] None)).
  - reflexivity.
  - reflexivity.
Defined.

(** *** Removing a track *)

Section RemoveTrack.

Context {W : Type}.

Local Open Scope list_scope.

Implicit Types (session : Session W) (playlist : Playlist W) (h : heap W).
Implicit Types (playlist_id : string) (track_id : pyval) (items_all : list item).

(** The search finds nothing exactly when no item matches. *)
Lemma find_track_index_None track_id items_all k :
  find_track_index track_id items_all k = None
  <-> (forall it, In it items_all -> id_matches track_id it = false).
Proof.
  revert k. induction items_all as [|it0 rest IH]; intros k; cbn [find_track_index].
  - split; [intros _ it []|reflexivity].
  - destruct (id_matches track_id it0) eqn:Hm.
    + split; [intros Hd; discriminate Hd|].
      intros Hall. rewrite (Hall it0 (or_introl eq_refl)) in Hm. discriminate Hm.
    + rewrite IH. split.
      * intros Hall it [Heq|Hin]; [subst it; exact Hm | apply Hall, Hin].
      * intros Hall it Hin. apply Hall. right; exact Hin.
Qed.

(** The search finds the position of the first item that matches. *)
Lemma find_track_index_first track_id items_all k i it :
  nth_error items_all i = Some it ->
  id_matches track_id it = true ->
  (forall j it', j < i -> nth_error items_all j = Some it' -> id_matches track_id it' = false) ->
  find_track_index track_id items_all k = Some (k + i).
Proof.
  revert k i. induction items_all as [|it0 rest IH]; intros k i Hnth Hm Hfirst.
  - destruct i; discriminate Hnth.
  - cbn [find_track_index]. destruct i as [|i].
    + cbn in Hnth. inversion Hnth; subst it0. rewrite Hm, Nat.add_0_r. reflexivity.
    + rewrite (Hfirst 0 it0 ltac:(lia) eq_refl).
      rewrite (IH (S k) i Hnth Hm).
      * f_equal. lia.
      * intros j it' Hj Hnth'. apply (Hfirst (S j) it'); [lia | exact Hnth'].
Qed.

(** A trace of page requests holds no removal. *)
Lemma items_events_no_remove (tr : list event) :
  forallb is_items_event tr = true -> List.filter is_remove_event tr = [].
Proof.
  induction tr as [|ev tr IH]; [reflexivity|].
  cbn [forallb List.filter]. intros Hall. apply andb_prop in Hall as [Hev Htr].
  destruct ev; try discriminate Hev. cbn [is_remove_event]. apply IH, Htr.
Qed.

(** The run of [remove_track_from_playlist] once the playlist is resolved and
    its items are fetched: the search, the removal when the search finds an
    index, then the handler for [RequestException]. *)
Lemma remove_track_fetched fuel session playlist_id track_id h playlist h1 items_all h2 tr :
  s_playlist session playlist_id h = (Ok (Some playlist), h1) ->
  items_loop fuel playlist (fun batch => batch) 100 0 [] (Heap (remote h1) None)
    = Run (Ok items_all) h2 tr ->
  remove_track_from_playlist fuel session playlist_id track_id h
  = try_except
      (fun _ =>
         let r := match find_track_index track_id items_all 0 with
                  | None => ret tt
                  | Some track_index =>
                      call (fun _ => EvRemoveByIndex track_index)
                           (pl_remove_by_index playlist track_index)
                  end h2 in
         Run (result r) (final r)
             (EvSessionPlaylist playlist_id :: EvSetItemsNone :: tr ++ trace r))
      isinstance_RequestException
      (fun e =>
         bind (logger_error ("Failed to remove track " ++ py_str track_id
                              ++ " from playlist " ++ playlist_id ++ ": " ++ exn_msg e))
              (fun _ => raise e)) h.
Proof.
  intros Hpl Hloop. unfold remove_track_from_playlist, try_except.
  rewrite (bind_Ok _ _ _ _ _ _ (call_run _ _ _ _ _ Hpl)).
  assert (Hset : set_items_none h1 = Run (Ok tt) (Heap (remote h1) None) [EvSetItemsNone])
    by reflexivity.
  rewrite (bind_Ok _ _ _ _ _ _ Hset).
  rewrite (bind_Ok _ _ _ _ _ _ Hloop).
  reflexivity.
Qed.

(** What [remove_track_from_playlist] does with the list it fetched: nothing
    when no item matches, one removal at the first matching position
    otherwise. *)
Lemma remove_track_after_fetch
    fuel session playlist_id track_id h playlist h1 items_all h2 tr :
  s_playlist session playlist_id h = (Ok (Some playlist), h1) ->
  items_loop fuel playlist (fun batch => batch) 100 0 [] (Heap (remote h1) None)
    = Run (Ok items_all) h2 tr ->
  let run := remove_track_from_playlist fuel session playlist_id track_id h in
  items_all = delivered tr
  /\ ((forall it, In it items_all -> id_matches track_id it = false) ->
      run = Run (Ok tt) h2 (EvSessionPlaylist playlist_id :: EvSetItemsNone :: tr)
      /\ List.filter is_remove_event (trace run) = [])
  /\ (forall i it,
        nth_error items_all i = Some it ->
        id_matches track_id it = true ->
        (forall j it', j < i -> nth_error items_all j = Some it' ->
                       id_matches track_id it' = false) ->
        List.filter is_remove_event (trace run) = [EvRemoveByIndex i]
        /\ result run = fst (pl_remove_by_index playlist i h2)
        /\ final run = snd (pl_remove_by_index playlist i h2)).
Proof.
  intros Hpl Hloop run.
  destruct (items_loop_trace fuel playlist (fun batch => batch) 100 eq_refl 0 []
              (Heap (remote h1) None)) as [Hev Hres].
  rewrite Hloop in Hev, Hres. cbn [result final trace] in Hev, Hres.
  pose proof (items_events_no_remove tr Hev) as Hnorem.
  split; [rewrite (Hres items_all eq_refl); reflexivity|].
  split.
  - intros Hnone. apply (find_track_index_None track_id items_all 0) in Hnone.
    subst run. rewrite (remove_track_fetched _ _ _ _ _ _ _ _ _ _ Hpl Hloop).
    unfold try_except. rewrite Hnone. cbn [ret result final trace].
    rewrite app_nil_r. split; [reflexivity|].
    cbn [List.filter is_remove_event]. exact Hnorem.
  - intros i it Hnth Hm Hfirst.
    pose proof (find_track_index_first track_id items_all 0 i it Hnth Hm Hfirst) as Hfind.
    cbn [Nat.add] in Hfind.
    subst run. rewrite (remove_track_fetched _ _ _ _ _ _ _ _ _ _ Hpl Hloop).
    unfold try_except, call, bind, logger_error, raise. rewrite Hfind.
    destruct (pl_remove_by_index playlist i h2) as [[[]|e|] h3];
      cbn [result final trace fst snd];
      try destruct (isinstance_RequestException e); cbn [result final trace];
      cbn [List.filter is_remove_event];
      repeat (rewrite ?List.filter_app; cbn [List.filter is_remove_event]);
      rewrite Hnorem; repeat split; reflexivity.
Qed.

End RemoveTrack.

(** C2. Once the playlist is resolved and its item list fetched again, page
    by page: when no fetched item has an identifier whose string equals that
    of [track_id], [remove_track_from_playlist] returns normally and issues no
    removal; when some item does, it issues exactly one removal, by index, at
    the position of the first such item, and its outcome is the outcome of that
    removal.  On the list-backed playlist the fetch does return the whole list,
    so that the call returns normally with the list unchanged in the first case
    and with the first matching entry taken out in the second. *)
Theorem remove_track_first_match_or_nothing :
  (forall W fuel (session : Session W) playlist_id track_id h playlist h1 items_all h2 tr,
      s_playlist session playlist_id h = (Ok (Some playlist), h1) ->
      items_loop fuel playlist (fun batch => batch) 100 0 [] (Heap (remote h1) None)
        = Run (Ok items_all) h2 tr ->
      let run := remove_track_from_playlist fuel session playlist_id track_id h in
      items_all = delivered tr
      /\ ((forall it, In it items_all -> id_matches track_id it = false) ->
          run = Run (Ok tt) h2 (EvSessionPlaylist playlist_id :: EvSetItemsNone :: tr)
          /\ List.filter is_remove_event (trace run) = [])
      /\ (forall i it,
            nth_error items_all i = Some it ->
            id_matches track_id it = true ->
            (forall j it', (j < i)%nat -> nth_error items_all j = Some it' ->
                           id_matches track_id it' = false) ->
            List.filter is_remove_event (trace run) = [EvRemoveByIndex i]
            /\ result run = fst (pl_remove_by_index playlist i h2)
            /\ final run = snd (pl_remove_by_index playlist i h2)))
  /\ (forall fuel items cached track_id,
        (length items / 100 < fuel)%nat ->
        let run := remove_track_from_playlist fuel (hooked_session None) "playlist_2"
                     track_id (Heap items cached) in
        ((forall it, In it items -> id_matches track_id it = false) ->
         result run = Ok tt
         /\ remote (final run) = items
         /\ List.filter is_remove_event (trace run) = [])
        /\ (forall i it,
              nth_error items i = Some it ->
              id_matches track_id it = true ->
              (forall j it', (j < i)%nat -> nth_error items j = Some it' ->
                             id_matches track_id it' = false) ->
              result run = Ok tt
              /\ remote (final run) = (firstn i items ++ skipn (S i) items)%list
              /\ List.filter is_remove_event (trace run) = [EvRemoveByIndex i])).
Proof.
  split.
  - intros W fuel session playlist_id track_id h playlist h1 items_all h2 tr.
    apply remove_track_after_fetch.
  - intros fuel items cached track_id Hfuel run.
    pose proof (items_loop_list_playlist (fun batch => batch) eq_refl
                  (fun a b => eq_refl) fuel items 0 None
                  ltac:(lia) ltac:(rewrite Nat.sub_0_r; exact Hfuel)) as Hloop.
    cbv zeta in Hloop. change (firstn 0 items) with (@nil item) in Hloop.
    destruct Hloop as [Hres Hfin].
    pose proof (run_eta (items_loop fuel list_playlist (fun batch => batch) 100 0 []
                           (Heap items None))) as Heta.
    rewrite Hres, Hfin in Heta. symmetry in Heta.
    destruct (remove_track_after_fetch fuel (hooked_session None) "playlist_2" track_id
                (Heap items cached) list_playlist (Heap items cached) items
                (Heap items None) _ eq_refl Heta) as (_ & Hnone & Hsome).
    fold run in Hnone, Hsome. split.
    + intros Hno. destruct (Hnone Hno) as [Hrun Hrem].
      rewrite Hrem, Hrun. repeat split.
    + intros i it Hnth Hm Hfirst.
      destruct (Hsome i it Hnth Hm Hfirst) as (Hrem & Hr & Hf).
      rewrite Hrem, Hr, Hf. repeat split.
Qed.

(** A remote playlist of three entries, two of which have an identifier
    that prints as ["77"]: the first of the two is taken out. *)
Lemma remove_track_first_match_or_nothing_witness :
  let items := [Item Track (Some (VInt 5)); Item Track (Some (VInt 77));
                Item Video (Some (VStr "77"))] in
  let run := remove_track_from_playlist 3 (hooked_session None) "playlist_2" (VStr "77")
               (Heap items None) in
  result run = Ok tt
  /\ remote (final run) = [Item Track (Some (VInt 5)); Item Video (Some (VStr "77"))]
  /\ List.filter is_remove_event (trace run) = [EvRemoveByIndex 1].
Proof.
  intros items.
  apply (proj2 (proj2 remove_track_first_match_or_nothing 3 items None (VStr "77")
                  ltac:(vm_compute; lia))
           1 (Item Track (Some (VInt 77)))).
  - reflexivity.
  - reflexivity.
  - intros j it' Hj Hnth. destruct j as [|j]; [|lia].
    cbn in Hnth. inversion Hnth; subst it'. reflexivity.
Defined.

Example remove_track_first_of_two_matches :
  remove_track_from_playlist 3 (hooked_session None) "playlist_2" (VStr "77")
    (Heap [Item Track (Some (VInt 5)); Item Track (Some (VInt 77));
           Item Video (Some (VStr "77"))] None)
  = Run (Ok tt)
      (Heap [Item Track (Some (VInt 5)); Item Video (Some (VStr "77"))] None)
      [EvSessionPlaylist "playlist_2"; EvSetItemsNone;
       EvItems Keyword 0 100
         (Ok (Some [Item Track (Some (VInt 5)); Item Track (Some (VInt 77));
                    Item Video (Some (VStr "77"))]));
       EvRemoveByIndex 1].
Proof. reflexivity. Qed.

Example remove_track_absent :
  remove_track_from_playlist 3 (hooked_session None) "playlist_2" (VStr "78")
    (Heap [Item Track (Some (VInt 5)); Item Track (Some (VInt 77))] None)
  = Run (Ok tt)
      (Heap [Item Track (Some (VInt 5)); Item Track (Some (VInt 77))] None)
      [EvSessionPlaylist "playlist_2"; EvSetItemsNone;
       EvItems Keyword 0 100
         (Ok (Some [Item Track (Some (VInt 5)); Item Track (Some (VInt 77))]))].
Proof. reflexivity. Qed.

(** *** Metadata of a playlist *)

(** For C8, as stated: an object that has a name and a track count but no
    [id] attribute makes [get_playlist_metadata] raise [AttributeError]. *)
Lemma get_playlist_metadata_missing_id_counterexample :
  let playlist : gmap string pyval :=
    <["name" := VStr "Favorites"]> (<["num_tracks" := VInt 2]> ∅) in
  playlist !! "id" = None
  /\ get_playlist_metadata playlist
     = Raise (Exn AttributeError "object has no attribute 'id'")
  /\ ~ (exists metadata, get_playlist_metadata playlist = Ok metadata).
Proof.
  cbv zeta. split; [reflexivity|].
  assert (Hr : get_playlist_metadata (<["name" := VStr "Favorites"]>
                                        (<["num_tracks" := VInt 2]> ∅))
               = Raise (Exn AttributeError "object has no attribute 'id'"))
    by reflexivity.
  split; [exact Hr|]. intros [metadata Hm]. rewrite Hr in Hm. discriminate Hm.
Qed.

(** The attributes of a [UserPlaylist] include its [id]. *)
Lemma playlist_attributes_id {W} (playlist : Playlist W) :
  playlist_attributes playlist !! "id" = Some (pl_id playlist).
Proof.
  unfold playlist_attributes.
  destruct (pl_name playlist), (pl_num_tracks playlist); reflexivity.
Qed.

(** C8, amended. [get_playlist_metadata] reads the attributes of the object
    it is given and nothing else.  On an object that has an [id] it returns a
    dictionary with exactly the keys [name], [item_count] and [id], and a
    missing [name] or [num_tracks] does not make it raise: [id] is
    [str(playlist.id)]; [name] is the attribute when there is one and
    ["Playlist <id>"] when there is none; [item_count] is [num_tracks] when
    there is one and [0] when there is none.  [id] has no default: on an
    object without it the function raises [AttributeError].  A [UserPlaylist]
    has its [id], so on one it returns. *)
Theorem get_playlist_metadata_defaults :
  (forall (playlist : gmap string pyval) id,
      playlist !! "id" = Some id ->
      exists metadata : gmap string pyval,
        get_playlist_metadata playlist = Ok metadata
        /\ dom metadata = {[ "name"; "item_count"; "id" ]}
        /\ metadata !! "id" = Some (VStr (py_str id))
        /\ (playlist !! "name" = None ->
            metadata !! "name" = Some (VStr ("Playlist " ++ py_str id)))
        /\ (forall name, playlist !! "name" = Some name -> metadata !! "name" = Some name)
        /\ (playlist !! "num_tracks" = None -> metadata !! "item_count" = Some (VInt 0))
        /\ (forall n, playlist !! "num_tracks" = Some n ->
                      metadata !! "item_count" = Some n))
  /\ (forall playlist : gmap string pyval,
        playlist !! "id" = None ->
        get_playlist_metadata playlist
        = Raise (Exn AttributeError "object has no attribute 'id'"))
  /\ (forall W (playlist : Playlist W),
        exists metadata, get_playlist_metadata (playlist_attributes playlist) = Ok metadata).
Proof.
  assert (Hpresent :
    forall (playlist : gmap string pyval) id,
      playlist !! "id" = Some id ->
      get_playlist_metadata playlist
      = Ok (<["id" := VStr (py_str id)]>
            (<["item_count" := match playlist !! "num_tracks" with
                               | Some n => n
                               | None => VInt 0
                               end]>
            (<["name" := match playlist !! "name" with
                         | Some name => name
                         | None => VStr ("Playlist " ++ py_str id)
                         end]> ∅)))).
  { intros playlist id Hid. unfold get_playlist_metadata, hasattr, getattr. rewrite Hid.
    destruct (playlist !! "name"), (playlist !! "num_tracks"); reflexivity. }
  split; [|split].
  - intros playlist id Hid. eexists. split; [apply (Hpresent playlist id Hid)|].
    split; [rewrite !dom_insert_L; set_solver|].
    split; [apply lookup_insert_eq|].
    repeat split; intros; simplify_map_eq; reflexivity.
  - intros playlist Hid. unfold get_playlist_metadata, hasattr, getattr. rewrite Hid.
    destruct (playlist !! "name"), (playlist !! "num_tracks"); reflexivity.
  - intros W playlist. eexists.
    apply (Hpresent _ _ (playlist_attributes_id playlist)).
Qed.

Lemma get_playlist_metadata_defaults_witness :
  let playlist : gmap string pyval := {[ "id" := VInt 42 ]} in
  exists metadata : gmap string pyval,
    get_playlist_metadata playlist = Ok metadata
    /\ dom metadata = {[ "name"; "item_count"; "id" ]}
    /\ metadata !! "id" = Some (VStr (py_str (VInt 42)))
    /\ (playlist !! "name" = None ->
        metadata !! "name" = Some (VStr ("Playlist " ++ py_str (VInt 42))))
    /\ (forall name, playlist !! "name" = Some name -> metadata !! "name" = Some name)
    /\ (playlist !! "num_tracks" = None -> metadata !! "item_count" = Some (VInt 0))
    /\ (forall n, playlist !! "num_tracks" = Some n -> metadata !! "item_count" = Some n).
Proof.
  apply (proj1 get_playlist_metadata_defaults {[ "id" := VInt 42 ]} (VInt 42)).
  reflexivity.
Defined.

Example get_playlist_metadata_no_attributes :
  get_playlist_metadata (playlist_attributes (inert_playlist (W := unit) "abc"))
  = Ok (<["id" := VStr "abc"]>
        (<["item_count" := VInt 0]>
        (<["name" := VStr "Playlist abc"]> ∅))).
Proof. reflexivity. Qed.

Example get_playlist_metadata_all_attributes :
  get_playlist_metadata (playlist_attributes list_playlist)
  = Ok (<["id" := VStr "playlist_2"]>
        (<["item_count" := VInt 1]>
        (<["name" := VStr "Workout"]> ∅))).
Proof. reflexivity. Qed.

(** An [id] that is an integer is printed; a [name] that is there but is
    [None] is kept, not replaced by the default. *)
Example get_playlist_metadata_int_id_none_name :
  get_playlist_metadata (<["id" := VInt 42]> (<["name" := VNone]> ∅))
  = Ok (<["id" := VStr "42"]>
        (<["item_count" := VInt 0]>
        (<["name" := VNone]> ∅))).
Proof. reflexivity. Qed.

(** ** Properties of the MPD attribute patch *)

Section PatchedParser.

Context {V : Type} (int_str : string -> option Z).

(** [_safe_int] returns the integer or [None]; it never raises. *)
Lemma safe_int_total (value : pyval) :
  _safe_int int_str value
  = Ok (match py_int int_str value with Ok z => Some z | _ => None end).
Proof.
  unfold _safe_int. destruct value as [|z|s]; cbn; try reflexivity.
  destruct (int_str s); reflexivity.
Qed.

(** Converting a list of strings with [int] gives a list of integers or
    raises the [ValueError] of the first string [int] rejects. *)
Lemma comprehension_int (l : list string) :
  (exists xs : list (scalar V), comprehension (apply_type int_str TyInt) l = Ok xs)
  \/ (exists e, comprehension (apply_type (V := V) int_str TyInt) l = Raise e
                /\ isinstance_TypeError_or_ValueError e = true).
Proof.
  induction l as [|s l IH]; [left; eexists; reflexivity|].
  cbn [comprehension apply_type py_int res_bind].
  destruct (int_str s) as [z|]; cbn [res_bind].
  - destruct IH as [[xs Hxs]|[e [He Hcatch]]]; rewrite ?Hxs, ?He; cbn [res_bind].
    + left; eexists; reflexivity.
    + right; exists e; split; [reflexivity | exact Hcatch].
  - right; eexists; split; reflexivity.
Qed.

(** C9. For an attribute declared with type [int], the patched parser always
    returns and never raises: [None] when the node has no such attribute,
    [None] when the value of the attribute is not accepted by [int], and the
    integer when it is.  [_safe_int] itself always returns, and so does the
    parser on an attribute declared as a list of [int]. *)
Theorem patched_parse_int_attr_never_raises (node : xmlnode) (attr_name : string) :
  (exists (v : parsed V) (debug : list string),
      patched_parse_attr_value int_str node attr_name (VTScalar TyInt) = (Ok v, debug)
      /\ (attributes node !! attr_name = None -> v = PNone)
      /\ (forall attr_val,
            attributes node !! attr_name = Some attr_val ->
            int_str attr_val = None -> v = PNone)
      /\ (forall attr_val z,
            attributes node !! attr_name = Some attr_val ->
            int_str attr_val = Some z -> v = PScalar (SInt z)))
  /\ (forall value, exists o, _safe_int int_str value = Ok o)
  /\ (forall ts, exists (v : parsed V) (debug : list string),
        patched_parse_attr_value int_str node attr_name (VTList (TyInt :: ts))
        = (Ok v, debug)).
Proof.
  split; [|split].
  - unfold patched_parse_attr_value.
    destruct (attributes node !! attr_name) as [attr_val|] eqn:Hattr.
    + cbn [is_int_type]. rewrite safe_int_total. cbn [py_int].
      destruct (int_str attr_val) as [z|] eqn:Hint; do 2 eexists;
        (split; [reflexivity|]); repeat split; intros; simplify_eq; reflexivity.
    + do 2 eexists. split; [reflexivity|]. repeat split; intros; simplify_eq; reflexivity.
  - intros value. rewrite safe_int_total. eexists; reflexivity.
  - intros ts. unfold patched_parse_attr_value.
    destruct (attributes node !! attr_name) as [attr_val|]; [|do 2 eexists; reflexivity].
    destruct (comprehension_int (re_split attr_val)) as [[xs Hxs]|[e [He Hcatch]]].
    + rewrite Hxs. do 2 eexists; reflexivity.
    + rewrite He, Hcatch. do 2 eexists; reflexivity.
Qed.

End PatchedParser.

Lemma patched_parse_int_attr_never_raises_witness :
  let node := {| attributes := {[ "id" := "main" ]} |} in
  (exists (v : parsed unit) (debug : list string),
      patched_parse_attr_value ascii_decimal node "id" (VTScalar TyInt) = (Ok v, debug)
      /\ (attributes node !! "id" = None -> v = PNone)
      /\ (forall attr_val,
            attributes node !! "id" = Some attr_val ->
            ascii_decimal attr_val = None -> v = PNone)
      /\ (forall attr_val z,
            attributes node !! "id" = Some attr_val ->
            ascii_decimal attr_val = Some z -> v = PScalar (SInt z)))
  /\ (forall value, exists o, _safe_int ascii_decimal value = Ok o)
  /\ (forall ts, exists (v : parsed unit) (debug : list string),
        patched_parse_attr_value ascii_decimal node "id" (VTList (TyInt :: ts))
        = (Ok v, debug)).
Proof.
  exact (patched_parse_int_attr_never_raises ascii_decimal
           {| attributes := {[ "id" := "main" ]} |} "id").
Defined.

(** The [AdaptationSet] attributes of the manifests that made the patch
    necessary: [id="main"] gives [None], [id="3"] gives [3], a missing [group]
    gives [None]; a list of integers that does not convert comes back as
    strings. *)
Example patched_parse_main :
  patched_parse_attr_value (V := unit) ascii_decimal
    {| attributes := {[ "id" := "main" ]} |} "id" (VTScalar TyInt)
  = (Ok PNone, ["mpegdash: Could not convert 'id'='main' to int, using None"]).
Proof. reflexivity. Qed.

Example patched_parse_three :
  patched_parse_attr_value (V := unit) ascii_decimal
    {| attributes := {[ "id" := "3" ]} |} "id" (VTScalar TyInt)
  = (Ok (PScalar (SInt 3)), []).
Proof. reflexivity. Qed.

Example patched_parse_absent :
  patched_parse_attr_value (V := unit) ascii_decimal
    {| attributes := {[ "id" := "3" ]} |} "group" (VTScalar TyInt)
  = (Ok PNone, []).
Proof. reflexivity. Qed.

Example patched_parse_list :
  patched_parse_attr_value (V := unit) ascii_decimal
    {| attributes := {[ "ids" := "1,2 main" ]} |} "ids" (VTList [TyInt])
  = (Ok (PList [SStr "1"; SStr "2"; SStr "main"]), []).
Proof. reflexivity. Qed.

(** *** Installing the patch once *)

(** A call on an interpreter where the guard is set changes nothing. *)
Lemma apply_mpegdash_patch_guarded (st : interp) :
  _patched st = true -> apply_mpegdash_patch st = st.
Proof. intros Hp. unfold apply_mpegdash_patch. rewrite Hp. reflexivity. Qed.

Lemma apply_mpegdash_patch_times_guarded (n : nat) (st : interp) :
  _patched st = true -> apply_mpegdash_patch_times n st = st.
Proof.
  intros Hp. induction n as [|n IH]; [reflexivity|].
  cbn [apply_mpegdash_patch_times]. rewrite (apply_mpegdash_patch_guarded st Hp). exact IH.
Qed.

(** Calls that do not install the patch leave guard and binding as they
    were. *)
Lemma apply_mpegdash_patch_times_unavailable (n : nat) (st : interp) :
  _patched st = false ->
  (mpegdash_utils st = None \/ mpegdash_utils st = Some None) ->
  _patched (apply_mpegdash_patch_times n st) = false
  /\ mpegdash_utils (apply_mpegdash_patch_times n st) = mpegdash_utils st.
Proof.
  revert st. induction n as [|n IH]; intros st Hp Hmod; [split; [exact Hp | reflexivity]|].
  cbn [apply_mpegdash_patch_times].
  assert (Hstep : _patched (apply_mpegdash_patch st) = false
                  /\ mpegdash_utils (apply_mpegdash_patch st) = mpegdash_utils st).
  { unfold apply_mpegdash_patch. rewrite Hp.
    destruct Hmod as [Hmod|Hmod]; rewrite Hmod; cbn; rewrite ?Hp, ?Hmod; split; reflexivity. }
  destruct Hstep as [Hp' Hmod'].
  destruct (IH (apply_mpegdash_patch st) Hp') as [IHp IHmod].
  - rewrite Hmod'. exact Hmod.
  - split; [exact IHp|]. rewrite IHmod. exact Hmod'.
Qed.

(** C10. [apply_mpegdash_patch] is idempotent.  A call that finds the guard
    unset and [mpegdash.utils.parse_attr_value] bound replaces the binding by
    the patched parser and sets the guard; a call that finds the guard set
    returns at once and changes nothing; so after any number [n >= 1] of
    calls the guard and the installed parser are those after one call, and the
    patched parser installed over the library's own wraps that one and not
    itself. *)
Theorem apply_mpegdash_patch_idempotent (n : nat) (st : interp) :
  1 <= n ->
  (forall original,
      _patched st = false ->
      mpegdash_utils st = Some (Some original) ->
      apply_mpegdash_patch st
      = Interp true (Some (Some (PatchedParser original)))
               (logged st ++ [(DEBUG, "mpegdash patch applied successfully")])
      /\ apply_mpegdash_patch_times n st = apply_mpegdash_patch st)
  /\ (_patched st = true -> apply_mpegdash_patch st = st)
  /\ _patched (apply_mpegdash_patch_times n st) = _patched (apply_mpegdash_patch st)
  /\ mpegdash_utils (apply_mpegdash_patch_times n st) = mpegdash_utils (apply_mpegdash_patch st)
  /\ (_patched st = false ->
      mpegdash_utils st = Some (Some LibraryParser) ->
      mpegdash_utils (apply_mpegdash_patch_times n st)
      = Some (Some (PatchedParser LibraryParser))).
Proof.
  intros Hn. destruct n as [|n]; [inversion Hn|]. clear Hn.
  cbn [apply_mpegdash_patch_times].
  assert (Hinstall : forall original,
             _patched st = false ->
             mpegdash_utils st = Some (Some original) ->
             apply_mpegdash_patch st
             = Interp true (Some (Some (PatchedParser original)))
                      (logged st ++ [(DEBUG, "mpegdash patch applied successfully")])).
  { intros original Hp Hmod. unfold apply_mpegdash_patch. rewrite Hp, Hmod. reflexivity. }
  assert (Hstable : _patched st = true \/ (exists original, mpegdash_utils st = Some (Some original))
                    -> apply_mpegdash_patch_times n (apply_mpegdash_patch st)
                       = apply_mpegdash_patch st).
  { intros Hcase. apply apply_mpegdash_patch_times_guarded.
    destruct (_patched st) eqn:Hp.
    - rewrite (apply_mpegdash_patch_guarded st Hp). exact Hp.
    - destruct Hcase as [Hc|[original Hmod]]; [discriminate Hc|].
      rewrite (Hinstall original eq_refl Hmod). reflexivity. }
  assert (Hsame : _patched (apply_mpegdash_patch_times n (apply_mpegdash_patch st))
                  = _patched (apply_mpegdash_patch st)
                  /\ mpegdash_utils (apply_mpegdash_patch_times n (apply_mpegdash_patch st))
                     = mpegdash_utils (apply_mpegdash_patch st)).
  { destruct (_patched st) eqn:Hp.
    - rewrite Hstable by (left; reflexivity). split; reflexivity.
    - destruct (mpegdash_utils st) as [[original|]|] eqn:Hmod.
      + rewrite Hstable by (right; exists original; reflexivity). split; reflexivity.
      + assert (Hstep : _patched (apply_mpegdash_patch st) = false
                        /\ mpegdash_utils (apply_mpegdash_patch st) = Some None).
        { unfold apply_mpegdash_patch. rewrite Hp, Hmod. cbn. split; reflexivity. }
        destruct Hstep as [Hp' Hmod'].
        destruct (apply_mpegdash_patch_times_unavailable n (apply_mpegdash_patch st) Hp'
                    (or_intror Hmod')) as [H1 H2].
        rewrite H1, H2, Hp'. split; reflexivity.
      + assert (Hstep : _patched (apply_mpegdash_patch st) = false
                        /\ mpegdash_utils (apply_mpegdash_patch st) = None).
        { unfold apply_mpegdash_patch. rewrite Hp, Hmod. cbn. split; reflexivity. }
        destruct Hstep as [Hp' Hmod'].
        destruct (apply_mpegdash_patch_times_unavailable n (apply_mpegdash_patch st) Hp'
                    (or_introl Hmod')) as [H1 H2].
        rewrite H1, H2, Hp'. split; reflexivity. }
  destruct Hsame as [Hsame1 Hsame2].
  split.
  { intros original Hp Hmod. split; [apply Hinstall; assumption|].
    apply Hstable. right. exists original. exact Hmod. }
  split; [apply apply_mpegdash_patch_guarded|].
  split; [exact Hsame1|]. split; [exact Hsame2|].
  intros Hp Hmod. rewrite Hsame2, (Hinstall LibraryParser Hp Hmod). reflexivity.
Qed.

Lemma apply_mpegdash_patch_idempotent_witness :
  let st := Interp false (Some (Some LibraryParser)) [] in
  (forall original,
      _patched st = false ->
      mpegdash_utils st = Some (Some original) ->
      apply_mpegdash_patch st
      = Interp true (Some (Some (PatchedParser original)))
               (logged st ++ [(DEBUG, "mpegdash patch applied successfully")])
      /\ apply_mpegdash_patch_times 3 st = apply_mpegdash_patch st)
  /\ (_patched st = true -> apply_mpegdash_patch st = st)
  /\ _patched (apply_mpegdash_patch_times 3 st) = _patched (apply_mpegdash_patch st)
  /\ mpegdash_utils (apply_mpegdash_patch_times 3 st) = mpegdash_utils (apply_mpegdash_patch st)
  /\ (_patched st = false ->
      mpegdash_utils st = Some (Some LibraryParser) ->
      mpegdash_utils (apply_mpegdash_patch_times 3 st)
      = Some (Some (PatchedParser LibraryParser))).
Proof.
  apply (apply_mpegdash_patch_idempotent 3 (Interp false (Some (Some LibraryParser)) [])).
  lia.
Defined.

(** Three calls on a fresh interpreter: one installation, one log line. *)
Example apply_mpegdash_patch_three_times :
  apply_mpegdash_patch_times 3 (Interp false (Some (Some LibraryParser)) [])
  = Interp true (Some (Some (PatchedParser LibraryParser)))
      [(DEBUG, "mpegdash patch applied successfully")].
Proof. reflexivity. Qed.

(** Whatever the library's own parser does, the binding installed by the
    patch runs [patched_parse_attr_value]. *)
Example installed_parser_is_patched :
  forall library,
    parser_behaviour (V := unit) ascii_decimal library (PatchedParser LibraryParser)
    = patched_parse_attr_value ascii_decimal.
Proof. reflexivity. Qed.

(** ** Further properties of the gateway *)

(** *** What is logged *)

Section ErrorLog.

Context {W : Type} (int_str : string -> option Z).

Local Open Scope list_scope.

Implicit Types (session : Session W) (playlist : Playlist W) (h : heap W).

(** The handler every gateway function ends with: it passes the outcome on
    and adds the error line owed for it. *)
Lemma logging_handler_run {A} (m : M W A) (msg : exn -> string) h :
  let r := try_except m isinstance_RequestException
             (fun e => bind (logger_error (msg e)) (fun _ => raise e)) h in
  result r = result (m h)
  /\ final r = final (m h)
  /\ trace r = trace (m h) ++ error_log_of msg (result (m h)).
Proof.
  unfold try_except, bind, logger_error, raise.
  destruct (m h) as [[a|e|] h1 tr]; cbn [result final trace error_log_of];
    try destruct (isinstance_RequestException e); cbn [result final trace];
    rewrite ?app_nil_r; repeat split; reflexivity.
Qed.

Lemma logging_handler_log {A} (m : M W A) (msg : exn -> string) h :
  List.filter is_log_event (trace (m h)) = [] ->
  List.filter is_log_event
    (trace (try_except m isinstance_RequestException
              (fun e => bind (logger_error (msg e)) (fun _ => raise e)) h))
  = error_log_of msg (result (m h)).
Proof.
  intros Hquiet. destruct (logging_handler_run m msg h) as (_ & _ & Htr).
  rewrite Htr, List.filter_app, Hquiet. cbn [app].
  unfold error_log_of. destruct (result (m h)) as [a|e|]; try reflexivity.
  destruct (isinstance_RequestException e); reflexivity.
Qed.

Lemma silent_ret {A} (a : A) : silent (W := W) (ret a).
Proof. intros h. reflexivity. Qed.

Lemma silent_raise {A} (e : exn) : silent (W := W) (raise (A := A) e).
Proof. intros h. reflexivity. Qed.

Lemma silent_lift {A} (r : res A) : silent (W := W) (lift r).
Proof. intros h. reflexivity. Qed.

Lemma silent_call {A} (ev : res A -> event) (f : ext W A) :
  (forall r, is_log_event (ev r) = false) -> silent (call ev f).
Proof.
  intros Hev h. unfold call. destruct (f h) as [r h1]. cbn [trace List.filter].
  rewrite Hev. reflexivity.
Qed.

Lemma silent_bind {A B} (m : M W A) (k : A -> M W B) :
  silent m -> (forall a, silent (k a)) -> silent (bind m k).
Proof.
  intros Hm Hk h. unfold bind. specialize (Hm h).
  destruct (m h) as [[a|e|] h1 tr]; cbn [result final trace] in *; try exact Hm.
  rewrite List.filter_app, Hm. apply Hk.
Qed.

Lemma silent_try {A} (m : M W A) catches (handler : exn -> M W A) :
  silent m -> (forall e, silent (handler e)) -> silent (try_except m catches handler).
Proof.
  intros Hm Hh h. unfold try_except. specialize (Hm h).
  destruct (m h) as [[a|e|] h1 tr]; cbn [result final trace] in *; try exact Hm.
  destruct (catches e); cbn [result final trace]; [|exact Hm].
  rewrite List.filter_app, Hm. apply Hh.
Qed.

Lemma silent_set_items_none : silent (W := W) set_items_none.
Proof. intros h. reflexivity. Qed.

Lemma silent_items_loop fuel playlist keep limit offset all_items :
  silent (items_loop fuel playlist keep limit offset all_items).
Proof.
  revert offset all_items. induction fuel as [|fuel IH]; intros offset all_items.
  - intros h. reflexivity.
  - cbn [items_loop]. apply silent_bind.
    + unfold fetch_batch. apply silent_try; [|intros e]; apply silent_call; reflexivity.
    + intros batch. destruct (negb (truthy batch)); [apply silent_ret|].
      destruct (Nat.ltb (length (elements_of batch)) limit); [apply silent_ret | apply IH].
Qed.

Lemma silent_request_hook session playlist_id : silent (request_hook session playlist_id).
Proof.
  unfold request_hook. destruct (s_request session) as [req|]; [|apply silent_ret].
  apply silent_try; [|intros e; apply silent_raise].
  apply silent_bind; [apply silent_call; reflexivity|].
  intros resp. destruct (raise_for_status resp); [apply silent_call; reflexivity|].
  apply silent_ret.
Qed.

Lemma silent_normalize_id track_id : silent (W := W) (normalize_id int_str track_id).
Proof.
  unfold normalize_id. apply silent_try; [|intros e; apply silent_ret].
  apply silent_bind; [apply silent_lift | intros z; apply silent_ret].
Qed.

(** What a function wrapped in the logging handler writes. *)
Lemma logging_handler_log_of {A} (m : M W A) (msg : exn -> string) h :
  silent m ->
  let r := try_except m isinstance_RequestException
             (fun e => bind (logger_error (msg e)) (fun _ => raise e)) h in
  List.filter is_log_event (trace r) = error_log_of msg (result r).
Proof.
  intros Hm r. destruct (logging_handler_run m msg h) as (Hres & _ & _).
  fold r in Hres. rewrite Hres. apply logging_handler_log, Hm.
Qed.

(** X1. Each of the four functions that call the remote service writes an
    error line exactly when it raises a [RequestException], writes one line
    only, and builds it from its own arguments and the message of the
    exception; on every other outcome (a value, a [ValueError], any other
    exception) it writes nothing. *)
Theorem gateway_logs_exactly_request_exceptions
    fuel session playlist playlist_id track_id h :
  List.filter is_log_event (trace (get_user_playlists session h))
    = error_log_of (fun e => "Failed to fetch user playlists: " ++ exn_msg e)%string
        (result (get_user_playlists session h))
  /\ List.filter is_log_event (trace (get_playlist_items fuel playlist h))
    = error_log_of (fun e => "Failed to fetch playlist items for " ++ py_str (pl_id playlist)
                             ++ ": " ++ exn_msg e)%string
        (result (get_playlist_items fuel playlist h))
  /\ List.filter is_log_event
       (trace (add_track_to_playlist int_str session playlist_id track_id h))
    = error_log_of (fun e => "Failed to add track " ++ py_str track_id ++ " to playlist "
                             ++ playlist_id ++ ": " ++ exn_msg e)%string
        (result (add_track_to_playlist int_str session playlist_id track_id h))
  /\ List.filter is_log_event
       (trace (remove_track_from_playlist fuel session playlist_id track_id h))
    = error_log_of (fun e => "Failed to remove track " ++ py_str track_id
                             ++ " from playlist " ++ playlist_id ++ ": " ++ exn_msg e)%string
        (result (remove_track_from_playlist fuel session playlist_id track_id h)).
Proof.
  split; [|split; [|split]].
  - unfold get_user_playlists. destruct (s_user session) as [user|]; [|reflexivity].
    apply logging_handler_log_of.
    apply silent_bind; [apply silent_call; reflexivity | intros pls; apply silent_ret].
  - unfold get_playlist_items. apply logging_handler_log_of.
    apply silent_bind; [apply silent_set_items_none | intros _; apply silent_items_loop].
  - unfold add_track_to_playlist. apply logging_handler_log_of.
    apply silent_bind; [apply silent_call; reflexivity|].
    intros [pl|]; [|apply silent_raise].
    apply silent_bind; [apply silent_normalize_id|]. intros norm_id.
    apply silent_bind; [apply silent_request_hook|]. intros _.
    apply silent_call; reflexivity.
  - unfold remove_track_from_playlist. apply logging_handler_log_of.
    apply silent_bind; [apply silent_call; reflexivity|].
    intros [pl|]; [|apply silent_raise].
    apply silent_bind; [apply silent_set_items_none|]. intros _.
    apply silent_bind; [apply silent_items_loop|]. intros items_all.
    destruct (find_track_index track_id items_all 0);
      [apply silent_call; reflexivity | apply silent_ret].
Qed.

End ErrorLog.

(** *** The request hook and the call to [playlist.add] *)

Section HookAndAdd.

Context {W : Type} (int_str : string -> option Z).

Local Open Scope list_scope.

Implicit Types (session : Session W) (playlist : Playlist W) (h : heap W).
Implicit Types (playlist_id : string) (track_id : pyval).

(** X2. The request hook turns every failure into one kind of error: an
    [Exception] that leaves it has class [RequestException], whether the
    request itself raised (then the status is never checked) or the status
    check did.  Without a callable [request] it does nothing, and a response
    without [raise_for_status] passes. *)
Theorem request_hook_outcome session playlist_id h :
  (s_request session = None -> request_hook session playlist_id h = Run (Ok tt) h [])
  /\ (forall e,
        result (request_hook session playlist_id h) = Raise e ->
        isinstance_Exception e = true ->
        exn_cls e = RequestException)
  /\ (forall req e0 h1,
        s_request session = Some req ->
        req "POST" ("/playlists/" ++ playlist_id ++ "/tracks")%string h = (Raise e0, h1) ->
        isinstance_Exception e0 = true ->
        request_hook session playlist_id h
        = Run (Raise (Exn RequestException (exn_msg e0))) h1
              [EvRequest "POST" ("/playlists/" ++ playlist_id ++ "/tracks")%string])
  /\ (forall req resp h1,
        s_request session = Some req ->
        req "POST" ("/playlists/" ++ playlist_id ++ "/tracks")%string h = (Ok resp, h1) ->
        raise_for_status resp = None ->
        request_hook session playlist_id h
        = Run (Ok tt) h1 [EvRequest "POST" ("/playlists/" ++ playlist_id ++ "/tracks")%string]).
Proof.
  split; [|split; [|split]].
  - intros Hreq. unfold request_hook. rewrite Hreq. reflexivity.
  - intros e. unfold request_hook. destruct (s_request session) as [req|];
      [|intros Hr; discriminate Hr].
    unfold try_except, bind, call, ret, raise.
    destruct (req _ _ h) as [[resp|e0|] h1]; cbn [result final trace].
    + destruct (raise_for_status resp) as [check|]; cbn [result final trace];
        [|intros Hr; discriminate Hr].
      destruct (check h1) as [[[]|e1|] h2]; cbn [result final trace];
        try (intros Hr; discriminate Hr).
      destruct (isinstance_Exception e1) eqn:Hexc; cbn [result final trace];
        intros Hr He; inversion Hr; subst e; [reflexivity|].
      rewrite Hexc in He. discriminate He.
    + destruct (isinstance_Exception e0) eqn:Hexc; cbn [result final trace];
        intros Hr He; inversion Hr; subst e; [reflexivity|].
      rewrite Hexc in He. discriminate He.
    + intros Hr; discriminate Hr.
  - intros req e0 h1 Hreq Hpost Hexc. unfold request_hook. rewrite Hreq.
    rewrite (try_caught _ _ _ _ e0 h1
               [EvRequest "POST" ("/playlists/" ++ playlist_id ++ "/tracks")%string]).
    + reflexivity.
    + rewrite (bind_Raise _ _ _ _ _ _ (call_run _ _ _ _ _ Hpost)). reflexivity.
    + exact Hexc.
  - intros req resp h1 Hreq Hpost Hattr. unfold request_hook. rewrite Hreq.
    rewrite (try_Ok _ _ _ _ tt h1
               [EvRequest "POST" ("/playlists/" ++ playlist_id ++ "/tracks")%string]);
      [reflexivity|].
    rewrite (bind_Ok _ _ _ _ _ _ (call_run _ _ _ _ _ Hpost)).
    rewrite Hattr. reflexivity.
Qed.

(** X3. [playlist.add] is called only on a resolved playlist and only after
    the request hook has returned normally, and then it is called once. *)
Theorem add_track_add_only_after_hook session playlist_id track_id h ids :
  In (EvAdd ids) (trace (add_track_to_playlist int_str session playlist_id track_id h)) ->
  exists playlist h1,
    s_playlist session playlist_id h = (Ok (Some playlist), h1)
    /\ result (request_hook session playlist_id h1) = Ok tt
    /\ List.filter is_add_event
         (trace (add_track_to_playlist int_str session playlist_id track_id h))
       = [EvAdd ids].
Proof.
  intros Hin.
  assert (Hf : In (EvAdd ids)
             (List.filter is_add_event
                (trace (add_track_to_playlist int_str session playlist_id track_id h)))).
  { apply filter_In. split; [exact Hin | reflexivity]. }
  destruct (s_playlist session playlist_id h) as [[[playlist|]|e|] h1] eqn:Hpl.
  - exists playlist, h1. split; [reflexivity|].
    rewrite (add_track_add_events int_str _ _ _ _ _ _ Hpl) in Hf |- *.
    destruct (result (request_hook session playlist_id h1)) as [[]|e|];
      cbn in Hf; try destruct Hf as [Heq|[]]; try destruct Hf.
    rewrite Heq. split; reflexivity.
  - rewrite add_track_unresolved_no_add in Hf; [destruct Hf|].
    intros playlist h2 Heq. rewrite Hpl in Heq. discriminate Heq.
  - rewrite add_track_unresolved_no_add in Hf; [destruct Hf|].
    intros playlist h2 Heq. rewrite Hpl in Heq. discriminate Heq.
  - rewrite add_track_unresolved_no_add in Hf; [destruct Hf|].
    intros playlist h2 Heq. rewrite Hpl in Heq. discriminate Heq.
Qed.

(** X4. Once the playlist is resolved and the hook has gone through, the
    outcome of [add_track_to_playlist] is the outcome of [playlist.add] on
    the normalised identifier: its value or its exception, unchanged, and the
    heap it leaves. *)
Theorem add_track_outcome_is_add_outcome
    session playlist_id track_id h playlist h1 h2 tr :
  s_playlist session playlist_id h = (Ok (Some playlist), h1) ->
  request_hook session playlist_id h1 = Run (Ok tt) h2 tr ->
  let norm_id := match py_int int_str track_id with Ok z => VInt z | _ => track_id end in
  let run := add_track_to_playlist int_str session playlist_id track_id h in
  result run = fst (pl_add playlist [norm_id] h2)
  /\ final run = snd (pl_add playlist [norm_id] h2)
  /\ List.filter (fun ev => negb (is_log_event ev)) (trace run)
     = EvSessionPlaylist playlist_id :: tr ++ [EvAdd [norm_id]].
Proof.
  intros Hpl Hhook norm_id run. subst run.
  rewrite (add_track_resolved int_str _ _ _ _ _ _ Hpl). fold norm_id.
  pose proof (silent_request_hook session playlist_id h1) as Hsilent.
  rewrite Hhook in Hsilent. cbn [trace] in Hsilent.
  assert (Hkeep : List.filter (fun ev => negb (is_log_event ev)) tr = tr).
  { clear -Hsilent. induction tr as [|ev tr IH]; [reflexivity|].
    cbn [List.filter] in *. destruct (is_log_event ev); [discriminate Hsilent|].
    cbn [negb]. rewrite (IH Hsilent). reflexivity. }
  unfold try_except, bind, call, logger_error, raise. rewrite Hhook.
  cbn [result final trace].
  destruct (pl_add playlist [norm_id] h2) as [[[]|e|] h3]; cbn [result final trace fst snd];
    try destruct (isinstance_RequestException e); cbn [result final trace];
    cbn [List.filter is_log_event negb];
    repeat (rewrite ?List.filter_app; cbn [List.filter is_log_event negb]);
    rewrite Hkeep, ?app_nil_r; repeat split; reflexivity.
Qed.

End HookAndAdd.

Lemma request_hook_outcome_witness :
  let failing := hooked_session (Some (Exn OtherException "boom")) in
  let raised := Exn RequestException "boom" in
  request_hook scripted_session "playlist_2" (Heap [] None) = Run (Ok tt) (Heap [] None) []
  /\ result (request_hook failing "playlist_2" empty_playlist) = Raise raised
  /\ exn_cls raised = RequestException.
Proof.
  intros failing raised. split; [|split].
  - apply (proj1 (request_hook_outcome scripted_session "playlist_2" (Heap [] None))).
    reflexivity.
  - reflexivity.
  - apply (proj1 (proj2 (request_hook_outcome failing "playlist_2" empty_playlist)) raised);
      reflexivity.
Defined.

Lemma add_track_add_only_after_hook_witness :
  exists playlist h1,
    s_playlist (hooked_session None) "playlist_2" empty_playlist = (Ok (Some playlist), h1)
    /\ result (request_hook (hooked_session None) "playlist_2" h1) = Ok tt
    /\ List.filter is_add_event
         (trace (add_track_to_playlist ascii_decimal (hooked_session None) "playlist_2"
                   (VStr "77") empty_playlist))
       = [EvAdd [VInt 77]].
Proof.
  apply (add_track_add_only_after_hook ascii_decimal (hooked_session None) "playlist_2"
           (VStr "77") empty_playlist [VInt 77]).
  vm_compute. tauto.
Defined.

Lemma add_track_outcome_is_add_outcome_witness :
  let run := add_track_to_playlist ascii_decimal (hooked_session None) "playlist_2"
               (VStr "77") empty_playlist in
  result run = fst (pl_add list_playlist [VInt 77] empty_playlist)
  /\ final run = snd (pl_add list_playlist [VInt 77] empty_playlist)
  /\ List.filter (fun ev => negb (is_log_event ev)) (trace run)
     = (EvSessionPlaylist "playlist_2"
        :: [EvRequest "POST" "/playlists/playlist_2/tracks"; EvRaiseForStatus]
        ++ [EvAdd [VInt 77]])%list.
Proof.
  apply (add_track_outcome_is_add_outcome ascii_decimal (hooked_session None) "playlist_2"
           (VStr "77") empty_playlist list_playlist empty_playlist empty_playlist
           [EvRequest "POST" "/playlists/playlist_2/tracks"; EvRaiseForStatus]).
  - reflexivity.
  - reflexivity.
Defined.

(** *** What a removal is aimed at *)

Section RemovalTarget.

Context {W : Type}.

Local Open Scope list_scope.

Implicit Types (session : Session W) (playlist : Playlist W) (h : heap W).
Implicit Types (playlist_id : string) (track_id : pyval) (items_all : list item).

(** An index the search returns is the position of the first match. *)
Lemma find_track_index_Some track_id items_all k i :
  find_track_index track_id items_all k = Some i ->
  exists j it,
    i = k + j
    /\ nth_error items_all j = Some it
    /\ id_matches track_id it = true
    /\ (forall j' it', j' < j -> nth_error items_all j' = Some it' ->
                       id_matches track_id it' = false).
Proof.
  revert k. induction items_all as [|it0 rest IH]; intros k Hfind; [discriminate Hfind|].
  cbn [find_track_index] in Hfind. destruct (id_matches track_id it0) eqn:Hm.
  - inversion Hfind; subst i. exists 0, it0. repeat split; [lia | exact Hm |].
    intros j' it' Hj. lia.
  - destruct (IH (S k) Hfind) as (j & it & Hi & Hnth & Hmatch & Hfirst).
    exists (S j), it. repeat split; [lia | exact Hnth | exact Hmatch |].
    intros j' it' Hj Hnth'. destruct j' as [|j'].
    + cbn in Hnth'. inversion Hnth'; subst it'. exact Hm.
    + apply (Hfirst j' it'); [lia | exact Hnth'].
Qed.

Lemma delivered_app (tr1 tr2 : list event) :
  delivered (tr1 ++ tr2) = delivered tr1 ++ delivered tr2.
Proof. unfold delivered. apply flat_map_app. Qed.

Lemma error_log_delivers_nothing {A} msg (r : res A) :
  delivered (error_log_of msg r) = []
  /\ List.filter is_remove_event (error_log_of msg r) = [].
Proof.
  unfold error_log_of. destruct r as [a|e|]; try (split; reflexivity).
  destruct (isinstance_RequestException e); split; reflexivity.
Qed.

Lemma error_log_not_items {A} msg (r : res A) :
  forallb (fun ev => negb (is_items_event ev)) (error_log_of msg r) = true.
Proof.
  unfold error_log_of. destruct r as [a|e|]; try reflexivity.
  destruct (isinstance_RequestException e); reflexivity.
Qed.

(** The trace of [remove_track_from_playlist], by the outcome of the lookup
    and of the fetch. *)
Lemma remove_track_trace fuel session playlist_id track_id h :
  let run := remove_track_from_playlist fuel session playlist_id track_id h in
  let msg := fun e => ("Failed to remove track " ++ py_str track_id
                       ++ " from playlist " ++ playlist_id ++ ": " ++ exn_msg e)%string in
  (exists tr, trace run = EvSessionPlaylist playlist_id :: tr
              /\ delivered tr = [] /\ List.filter is_remove_event tr = []
              /\ forallb (fun ev => negb (is_items_event ev)) tr = true)
  \/ (exists playlist h1 loop,
        s_playlist session playlist_id h = (Ok (Some playlist), h1)
        /\ loop = items_loop fuel playlist (fun batch => batch) 100 0 []
                    (Heap (remote h1) None)
        /\ ((forall items_all, result loop <> Ok items_all)
            /\ trace run = EvSessionPlaylist playlist_id :: EvSetItemsNone :: trace loop
                           ++ error_log_of msg (result run)
            \/ exists items_all,
                 result loop = Ok items_all
                 /\ trace run
                    = EvSessionPlaylist playlist_id :: EvSetItemsNone :: trace loop
                      ++ match find_track_index track_id items_all 0 with
                         | Some i => [EvRemoveByIndex i]
                         | None => []
                         end
                      ++ error_log_of msg (result run))).
Proof.
  intros run msg. subst run. unfold remove_track_from_playlist.
  match goal with |- context [try_except ?m _ _ h] =>
    set (inner := m);
    change (try_except inner isinstance_RequestException _ h)
      with (try_except inner isinstance_RequestException
              (fun e => bind (logger_error (msg e)) (fun _ => raise e)) h);
    destruct (logging_handler_run inner msg h) as (Hres & _ & Htr)
  end.
  cbv zeta in Hres, Htr. rewrite Htr, Hres. clear Htr Hres.
  destruct (s_playlist session playlist_id h) as [[[playlist|]|e|] h1] eqn:Hpl.
  - right. exists playlist, h1, (items_loop fuel playlist (fun batch => batch) 100 0 []
                                  (Heap (remote h1) None)).
    split; [reflexivity|]. split; [reflexivity|].
    assert (Hset : set_items_none h1 = Run (Ok tt) (Heap (remote h1) None) [EvSetItemsNone])
      by reflexivity.
    subst inner. rewrite (bind_Ok _ _ _ _ _ _ (call_run _ _ _ _ _ Hpl)).
    rewrite (bind_Ok _ _ _ _ _ _ Hset). cbn [result final trace app].
    pose proof (run_eta (items_loop fuel playlist (fun batch => batch) 100 0 []
                           (Heap (remote h1) None))) as Heta. symmetry in Heta.
    destruct (result (items_loop fuel playlist (fun batch => batch) 100 0 []
                        (Heap (remote h1) None))) as [items_all|e|] eqn:Hloop.
    + right. exists items_all. split; [reflexivity|].
      rewrite (bind_Ok _ _ _ _ _ _ Heta). cbn [result final trace].
      destruct (find_track_index track_id items_all 0) as [i|]; unfold call, ret.
      * destruct (pl_remove_by_index playlist i _) as [r h3]; cbn [result final trace].
        rewrite <- !app_assoc. reflexivity.
      * cbn [result final trace]. rewrite app_nil_r. reflexivity.
    + left. split; [intros items_all Hc; discriminate Hc|].
      rewrite (bind_Raise _ _ _ _ _ _ Heta). reflexivity.
    + left. split; [intros items_all Hc; discriminate Hc|].
      rewrite (bind_OutOfFuel _ _ _ _ _ Heta). reflexivity.
  - left. subst inner. rewrite (bind_Ok _ _ _ _ _ _ (call_run _ _ _ _ _ Hpl)).
    cbn [result final trace raise app]. eexists; split; [reflexivity|].
    repeat split.
  - left. subst inner. rewrite (bind_Raise _ _ _ _ _ _ (call_run _ _ _ _ _ Hpl)).
    cbn [result final trace app]. eexists; split; [reflexivity|].
    split; [apply error_log_delivers_nothing|].
    split; [apply error_log_delivers_nothing | apply error_log_not_items].
  - left. subst inner. rewrite (bind_OutOfFuel _ _ _ _ _ (call_run _ _ _ _ _ Hpl)).
    cbn [result final trace app]. eexists; split; [reflexivity|].
    repeat split.
Qed.

(** X5. Whatever the session and the source, a removal that
    [remove_track_from_playlist] issues is aimed at the first entry, among all
    entries the pages delivered (tracks or not), whose identifier prints like
    [track_id]: the index is within the delivered list, no earlier entry
    matches, and no second removal is issued.  In particular nothing is
    removed when the lookup or the fetch fails. *)
Theorem remove_track_removal_is_first_match fuel session playlist_id track_id h i :
  let run := remove_track_from_playlist fuel session playlist_id track_id h in
  In (EvRemoveByIndex i) (trace run) ->
  exists it,
    nth_error (delivered (trace run)) i = Some it
    /\ id_matches track_id it = true
    /\ (forall j it', j < i -> nth_error (delivered (trace run)) j = Some it' ->
                      id_matches track_id it' = false)
    /\ List.filter is_remove_event (trace run) = [EvRemoveByIndex i].
Proof.
  intros run Hin.
  assert (Hf : In (EvRemoveByIndex i) (List.filter is_remove_event (trace run))).
  { apply filter_In. split; [exact Hin | reflexivity]. }
  destruct (remove_track_trace fuel session playlist_id track_id h)
    as [(tr & Htr & _ & Hnone & _)|(playlist & h1 & loop & Hpl & Hloop & Hcases)];
    fold run in Htr || fold run in Hcases.
  - rewrite Htr in Hf. cbn [List.filter is_remove_event] in Hf. rewrite Hnone in Hf.
    destruct Hf.
  - destruct (items_loop_trace fuel playlist (fun batch => batch) 100 eq_refl 0 []
                (Heap (remote h1) None)) as [Hev Hitems].
    rewrite <- Hloop in Hev, Hitems.
    pose proof (items_events_no_remove _ Hev) as Hnorem.
    destruct Hcases as [[_ Htr]|(items_all & Hres & Htr)].
    + rewrite Htr in Hf. cbn [List.filter is_remove_event] in Hf.
      rewrite List.filter_app, Hnorem in Hf.
      rewrite (proj2 (error_log_delivers_nothing _ _)) in Hf. destruct Hf.
    + specialize (Hitems items_all Hres). cbn [app] in Hitems. rewrite kept_all in Hitems.
      assert (Hdel : delivered (trace run) = items_all).
      { rewrite Htr. unfold delivered at 1. cbn [flat_map page_of app].
        fold (delivered (trace loop
                 ++ match find_track_index track_id items_all 0 with
                    | Some i0 => [EvRemoveByIndex i0]
                    | None => []
                    end ++ error_log_of
                             (fun e => ("Failed to remove track " ++ py_str track_id
                                        ++ " from playlist " ++ playlist_id ++ ": "
                                        ++ exn_msg e)%string) (result run))).
        rewrite !delivered_app, (proj1 (error_log_delivers_nothing _ _)), <- Hitems.
        destruct (find_track_index track_id items_all 0); cbn; rewrite !app_nil_r;
          reflexivity. }
      rewrite Htr in Hf |- *. cbn [List.filter is_remove_event] in Hf |- *.
      rewrite !List.filter_app, Hnorem, (proj2 (error_log_delivers_nothing _ _)) in Hf |- *.
      rewrite <- Htr, Hdel.
      destruct (find_track_index track_id items_all 0) as [i0|] eqn:Hfind;
        cbn in Hf; [|destruct Hf].
      destruct Hf as [Heq|[]]. inversion Heq; subst i0.
      destruct (find_track_index_Some _ _ _ _ Hfind) as (j & it & Hi & Hnth & Hm & Hfirst).
      cbn [Nat.add] in Hi. subst j.
      exists it. split; [exact Hnth|]. split; [exact Hm|]. split; [exact Hfirst|].
      reflexivity.
Qed.

End RemovalTarget.

Lemma remove_track_removal_is_first_match_witness :
  let items := [Item Video (Some (VInt 5)); Item Track (Some (VInt 77));
                Item Video (Some (VStr "77"))] in
  let run := remove_track_from_playlist 3 (hooked_session None) "playlist_2" (VStr "77")
               (Heap items None) in
  exists it,
    nth_error (delivered (trace run)) 1 = Some it
    /\ id_matches (VStr "77") it = true
    /\ (forall j it', (j < 1)%nat -> nth_error (delivered (trace run)) j = Some it' ->
                      id_matches (VStr "77") it' = false)
    /\ List.filter is_remove_event (trace run) = [EvRemoveByIndex 1].
Proof.
  intros items.
  apply (remove_track_removal_is_first_match 3 (hooked_session None) "playlist_2"
           (VStr "77") (Heap items None) 1).
  vm_compute. tauto.
Defined.

(** *** The page requests *)

Section PageRequests.

Context {W : Type}.

Local Open Scope list_scope.

Implicit Types (session : Session W) (playlist : Playlist W) (h : heap W).

(** Keeping only some items of each page changes what the loop returns and
    nothing else: not the requests, not the heap. *)
Lemma items_loop_filter (f : item -> bool) fuel playlist limit :
  forall offset all_items h,
    let raw := items_loop fuel playlist (fun batch => batch) limit offset all_items h in
    items_loop fuel playlist (List.filter f) limit offset (List.filter f all_items) h
    = Run (res_map (List.filter f) (result raw)) (final raw) (trace raw).
Proof.
  induction fuel as [|fuel IH]; intros offset all_items h; [reflexivity|].
  cbn [items_loop]. unfold bind.
  destruct (fetch_batch playlist offset limit h) as [[batch|e|] h1 tr];
    cbn [result final trace]; try reflexivity.
  destruct (negb (truthy batch)); [reflexivity|].
  destruct (Nat.ltb (length (elements_of batch)) limit).
  - cbn [ret result final trace res_map]. rewrite List.filter_app. reflexivity.
  - rewrite <- List.filter_app. rewrite IH. reflexivity.
Qed.

(** The page requests of [get_playlist_items] are the trace of the unfiltered
    loop. *)
Lemma page_requests_of_get_playlist_items fuel playlist h :
  List.filter is_items_event (trace (get_playlist_items fuel playlist h))
  = trace (items_loop fuel playlist (fun batch => batch) 100 0 [] (Heap (remote h) None)).
Proof.
  rewrite get_playlist_items_run. cbv zeta.
  pose proof (items_loop_filter is_Track fuel playlist 100 0 [] (Heap (remote h) None))
    as Hf. cbv zeta in Hf. cbn [List.filter] in Hf. rewrite Hf.
  cbn [result final trace].
  destruct (items_loop_trace fuel playlist (fun batch => batch) 100 eq_refl 0 []
              (Heap (remote h) None)) as [Hev _].
  set (raw := items_loop fuel playlist (fun batch => batch) 100 0 []
                (Heap (remote h) None)) in *.
  assert (Hall : List.filter is_items_event (trace raw) = trace raw).
  { clear -Hev. induction (trace raw) as [|ev tr IH]; [reflexivity|].
    cbn [forallb List.filter] in *. apply andb_prop in Hev as [Hev Htr].
    rewrite Hev, (IH Htr). reflexivity. }
  destruct (result raw) as [l|e|]; cbn [res_map result final trace List.filter is_items_event];
    try exact Hall.
  destruct (isinstance_RequestException e); cbn [result final trace List.filter is_items_event];
    rewrite ?List.filter_app, Hall; cbn; rewrite ?app_nil_r; reflexivity.
Qed.

(** X6. [get_playlist_items] issues the very page requests of the unfiltered
    fetch that [remove_track_from_playlist] performs and leaves the same heap;
    it differs only in returning the [Track] instances of the list that fetch
    returns.  So videos count for the offsets and for the end of the paging
    although they are not returned. *)
Theorem get_playlist_items_filters_unfiltered_fetch fuel playlist h :
  let raw := items_loop fuel playlist (fun batch => batch) 100 0 []
               (Heap (remote h) None) in
  let run := get_playlist_items fuel playlist h in
  result run = res_map (List.filter is_Track) (result raw)
  /\ final run = final raw
  /\ List.filter is_items_event (trace run) = trace raw.
Proof.
  intros raw run. subst run. rewrite get_playlist_items_run. cbv zeta.
  pose proof (items_loop_filter is_Track fuel playlist 100 0 [] (Heap (remote h) None))
    as Hf. cbv zeta in Hf. cbn [List.filter] in Hf. fold raw in Hf. rewrite Hf.
  cbn [result final trace].
  destruct (items_loop_trace fuel playlist (fun batch => batch) 100 eq_refl 0 []
              (Heap (remote h) None)) as [Hev _]. fold raw in Hev.
  assert (Hall : List.filter is_items_event (trace raw) = trace raw).
  { clear -Hev. induction (trace raw) as [|ev tr IH]; [reflexivity|].
    cbn [forallb List.filter] in *. apply andb_prop in Hev as [Hev Htr].
    rewrite Hev, (IH Htr). reflexivity. }
  destruct (result raw) as [l|e|]; cbn [res_map result final trace List.filter is_items_event];
    try (repeat split; exact Hall).
  destruct (isinstance_RequestException e); cbn [result final trace List.filter is_items_event];
    rewrite ?List.filter_app, Hall; cbn; rewrite ?app_nil_r; repeat split; reflexivity.
Qed.

Lemma paged_from_app limit offset (tr1 tr2 : list event) :
  paged_from limit offset (tr1 ++ tr2)
  = paged_from limit offset tr1 && paged_from limit (offset + length (delivered tr1)) tr2.
Proof.
  revert offset. induction tr1 as [|ev tr1 IH]; intros offset.
  - cbn. rewrite Nat.add_0_r. reflexivity.
  - destruct ev; cbn [app paged_from delivered flat_map page_of]; rewrite IH;
      cbn [app length]; rewrite ?Nat.add_0_r; try reflexivity.
    fold (delivered tr1). rewrite length_app, Nat.add_assoc, andb_assoc. reflexivity.
Qed.

Lemma paged_from_other limit offset (tr : list event) :
  forallb (fun ev => negb (is_items_event ev)) tr = true ->
  paged_from limit offset tr = true.
Proof.
  induction tr as [|ev tr IH]; [reflexivity|].
  cbn [forallb]. intros Hall. apply andb_prop in Hall as [Hev Htr].
  destruct ev; try discriminate Hev; cbn [paged_from]; apply IH, Htr.
Qed.

(** A page request asks for [limit] items at [offset], twice when the
    first call raised [TypeError]. *)
Lemma fetch_batch_paged playlist offset limit h :
  paged_from limit offset (trace (fetch_batch playlist offset limit h)) = true
  /\ (forall batch,
        result (fetch_batch playlist offset limit h) = Ok batch ->
        length (delivered (trace (fetch_batch playlist offset limit h)))
        = length (elements_of batch)).
Proof.
  unfold fetch_batch, try_except, call.
  destruct (pl_items playlist Keyword offset limit h) as [[b|e|] h1]; cbn [result final trace].
  - cbn [paged_from]. rewrite !Nat.eqb_refl. split; [reflexivity|].
    intros batch Hb. inversion Hb; subst. destruct batch; cbn; rewrite ?app_nil_r; reflexivity.
  - destruct (isinstance_TypeError e); cbn [result final trace].
    + destruct (pl_items playlist Positional offset limit h1) as [[b|e'|] h2];
        cbn [result final trace app paged_from page_of length]; rewrite ?Nat.add_0_r;
        cbn [paged_from]; rewrite !Nat.eqb_refl; (split; [reflexivity|]);
        intros batch Hb; inversion Hb; subst.
      destruct batch; cbn; rewrite ?app_nil_r; reflexivity.
    + cbn [paged_from]. rewrite !Nat.eqb_refl. split; [reflexivity|].
      intros batch Hb; discriminate Hb.
  - cbn [paged_from]. rewrite !Nat.eqb_refl. split; [reflexivity|].
    intros batch Hb; discriminate Hb.
Qed.

Lemma items_loop_paged fuel playlist keep limit :
  forall offset all_items h,
    paged_from limit offset (trace (items_loop fuel playlist keep limit offset all_items h))
    = true.
Proof.
  induction fuel as [|fuel IH]; intros offset all_items h; [reflexivity|].
  cbn [items_loop]. unfold bind.
  destruct (fetch_batch_paged playlist offset limit h) as [Hpaged Hlen].
  destruct (fetch_batch playlist offset limit h) as [[batch|e|] h1 tr];
    cbn [result final trace] in *; try exact Hpaged.
  rewrite paged_from_app, Hpaged, (Hlen batch eq_refl). cbn [andb].
  destruct (negb (truthy batch)); [reflexivity|].
  destruct (Nat.ltb (length (elements_of batch)) limit); [reflexivity|]. apply IH.
Qed.

(** The arguments of the page requests of both fetches. *)
Lemma fetches_paged fuel session playlist playlist_id track_id h :
  paged_from 100 0 (trace (get_playlist_items fuel playlist h)) = true
  /\ paged_from 100 0
       (trace (remove_track_from_playlist fuel session playlist_id track_id h)) = true.
Proof.
  split.
  - rewrite get_playlist_items_run. cbv zeta.
    pose proof (items_loop_paged fuel playlist (List.filter is_Track) 100 0 []
                  (Heap (remote h) None)) as Hp.
    destruct (items_loop fuel playlist (List.filter is_Track) 100 0 []
                (Heap (remote h) None)) as [[l|e|] h1 tr]; cbn [result final trace] in *;
      cbn [paged_from]; try exact Hp.
    destruct (isinstance_RequestException e); cbn [trace paged_from]; [|exact Hp].
    rewrite paged_from_app, Hp. reflexivity.
  - destruct (remove_track_trace fuel session playlist_id track_id h)
      as [(tr & Htr & _ & _ & Hother)|(pl & h1 & loop & Hpl & Hloop & Hcases)].
    + cbv zeta in Htr. rewrite Htr. cbn [paged_from]. apply paged_from_other, Hother.
    + pose proof (items_loop_paged fuel pl (fun batch => batch) 100 0 []
                    (Heap (remote h1) None)) as Hp. rewrite <- Hloop in Hp.
      cbv zeta in Hcases.
      destruct Hcases as [[_ Htr]|(items_all & _ & Htr)]; rewrite Htr; cbn [paged_from];
        rewrite !paged_from_app, Hp; cbn [andb].
      * apply paged_from_other, error_log_not_items.
      * rewrite paged_from_other; [apply paged_from_other, error_log_not_items|].
        destruct (find_track_index track_id items_all 0); reflexivity.
Qed.

End PageRequests.

(** X7. In both fetches every call to [playlist.items] is passed the number
    of items (of any kind) delivered so far as [offset], starting from 0, and
    100 as [limit]: by name in the first call of an iteration, and by
    position, [offset] first and [limit] second, in the retry that follows a
    [TypeError].  The retry names nothing, so on a playlist that refuses
    keywords and reads its positional arguments as limit first, offset second,
    it asks for 0 items from position 100: [get_playlist_items] then returns
    the empty list and [remove_track_from_playlist] removes nothing, whatever
    the remote holds. *)
Theorem fetches_page_by_delivered_items :
  (forall W fuel (session : Session W) (playlist : Playlist W) playlist_id track_id
          (h : heap W),
      paged_from 100 0 (trace (get_playlist_items fuel playlist h)) = true
      /\ paged_from 100 0
           (trace (remove_track_from_playlist fuel session playlist_id track_id h)) = true)
  /\ (forall fuel (items : list item) cached track_id,
        0 < fuel ->
        get_playlist_items fuel limit_first_playlist (Heap items cached)
        = Run (Ok []) (Heap items None)
              [EvSetItemsNone;
               EvItems Keyword 0 100
                 (Raise (Exn TypeError "items() got an unexpected keyword argument 'offset'"));
               EvItems Positional 0 100 (Ok (Some []))]
        /\ remove_track_from_playlist fuel limit_first_session "playlist_3" track_id
             (Heap items cached)
           = Run (Ok tt) (Heap items None)
               [EvSessionPlaylist "playlist_3";
                EvSetItemsNone;
                EvItems Keyword 0 100
                  (Raise (Exn TypeError "items() got an unexpected keyword argument 'offset'"));
                EvItems Positional 0 100 (Ok (Some []))]).
Proof.
  split.
  - intros W fuel session playlist playlist_id track_id h. apply fetches_paged.
  - intros fuel items cached track_id Hfuel. destruct fuel as [|fuel]; [inversion Hfuel|].
    split; reflexivity.
Qed.

Lemma fetches_page_by_delivered_items_witness :
  get_playlist_items 3 limit_first_playlist (Heap (tracks_from 0 5) None)
  = Run (Ok []) (Heap (tracks_from 0 5) None)
        [EvSetItemsNone;
         EvItems Keyword 0 100
           (Raise (Exn TypeError "items() got an unexpected keyword argument 'offset'"));
         EvItems Positional 0 100 (Ok (Some []))]
  /\ remove_track_from_playlist 3 limit_first_session "playlist_3" (VStr "2")
       (Heap (tracks_from 0 5) None)
     = Run (Ok tt) (Heap (tracks_from 0 5) None)
         [EvSessionPlaylist "playlist_3";
          EvSetItemsNone;
          EvItems Keyword 0 100
            (Raise (Exn TypeError "items() got an unexpected keyword argument 'offset'"));
          EvItems Positional 0 100 (Ok (Some []))].
Proof.
  apply (proj2 fetches_page_by_delivered_items 3 (tracks_from 0 5) None (VStr "2")).
  lia.
Defined.

(** *** Adding, fetching and removing on the list-backed playlist *)

Section ListBackedRoundTrip.

Context (int_str : string -> option Z).

Local Open Scope list_scope.

Implicit Types (items : list item) (track_id : pyval).

(** Adding on the list-backed session appends the normalised identifier as a
    track. *)
Lemma add_track_list_playlist items cached track_id :
  let norm_id := match py_int int_str track_id with Ok z => VInt z | _ => track_id end in
  add_track_to_playlist int_str (hooked_session None) "playlist_2" track_id
    (Heap items cached)
  = Run (Ok tt) (Heap (items ++ [Item Track (Some norm_id)]) cached)
        [EvSessionPlaylist "playlist_2";
         EvRequest "POST" "/playlists/playlist_2/tracks";
         EvRaiseForStatus;
         EvAdd [norm_id]].
Proof.
  intros norm_id.
  rewrite (add_track_resolved int_str (hooked_session None) "playlist_2" track_id
             (Heap items cached) list_playlist (Heap items cached) eq_refl).
  reflexivity.
Qed.

(** Fetching the items of the list-backed playlist. *)
Lemma get_playlist_items_list_playlist fuel items cached :
  length items / 100 < fuel ->
  result (get_playlist_items fuel list_playlist (Heap items cached))
  = Ok (List.filter is_Track items).
Proof.
  intros Hfuel. rewrite get_playlist_items_run. cbv zeta.
  pose proof (items_loop_list_playlist (List.filter is_Track) eq_refl
                (List.filter_app is_Track) fuel items 0 None
                ltac:(lia) ltac:(rewrite Nat.sub_0_r; exact Hfuel)) as Hloop.
  cbv zeta in Hloop.
  change (List.filter is_Track (firstn 0 items)) with (@nil item) in Hloop.
  destruct Hloop as [Hres _]. cbn [remote]. rewrite Hres. reflexivity.
Qed.

(** Removing on the list-backed session, by what the search finds. *)
Lemma remove_track_list_playlist fuel items cached track_id :
  length items / 100 < fuel ->
  remove_track_from_playlist fuel (hooked_session None) "playlist_2" track_id
    (Heap items cached)
  = let tr := trace (items_loop fuel list_playlist (fun batch => batch) 100 0 []
                       (Heap items None)) in
    match find_track_index track_id items 0 with
    | None =>
        Run (Ok tt) (Heap items None)
            (EvSessionPlaylist "playlist_2" :: EvSetItemsNone :: tr)
    | Some i =>
        Run (Ok tt) (Heap (firstn i items ++ skipn (S i) items) None)
            (EvSessionPlaylist "playlist_2" :: EvSetItemsNone :: tr ++ [EvRemoveByIndex i])
    end.
Proof.
  intros Hfuel.
  pose proof (items_loop_list_playlist (fun batch => batch) eq_refl
                (fun a b => eq_refl) fuel items 0 None
                ltac:(lia) ltac:(rewrite Nat.sub_0_r; exact Hfuel)) as Hloop.
  cbv zeta in Hloop. change (firstn 0 items) with (@nil item) in Hloop.
  destruct Hloop as [Hres Hfin].
  pose proof (run_eta (items_loop fuel list_playlist (fun batch => batch) 100 0 []
                         (Heap items None))) as Heta.
  rewrite Hres, Hfin in Heta. symmetry in Heta.
  rewrite (remove_track_fetched fuel (hooked_session None) "playlist_2" track_id
             (Heap items cached) list_playlist (Heap items cached) items
             (Heap items None) _ eq_refl Heta).
  cbv zeta. destruct (find_track_index track_id items 0) as [i|]; cbn.
  - reflexivity.
  - rewrite app_nil_r. reflexivity.
Qed.

(** X8. On the list-backed playlist, adding a track and then removing it
    gives the list back, provided no entry already had that identifier and
    the identifier prints the same before and after normalisation.  When
    normalisation changes how it prints (as [int] does to a padded or signed
    literal), the string comparison of the removal no longer finds the entry
    just added, nothing is removed, and the track stays. *)
Theorem add_then_remove_round_trip fuel items cached track_id :
  S (length items) / 100 < fuel ->
  (forall it, In it items -> id_matches track_id it = false) ->
  let norm_id := match py_int int_str track_id with Ok z => VInt z | _ => track_id end in
  let session := hooked_session None in
  let added := add_track_to_playlist int_str session "playlist_2" track_id
                 (Heap items cached) in
  let removed := remove_track_from_playlist fuel session "playlist_2" track_id
                   (final added) in
  result added = Ok tt
  /\ remote (final added) = items ++ [Item Track (Some norm_id)]
  /\ result removed = Ok tt
  /\ (py_str norm_id = py_str track_id ->
      remote (final removed) = items
      /\ List.filter is_remove_event (trace removed) = [EvRemoveByIndex (length items)])
  /\ (py_str norm_id <> py_str track_id ->
      remote (final removed) = items ++ [Item Track (Some norm_id)]
      /\ List.filter is_remove_event (trace removed) = []).
Proof.
  intros Hfuel Hnone norm_id session added removed.
  subst added removed session. rewrite add_track_list_playlist. fold norm_id.
  cbn [result final remote].
  split; [reflexivity|]. split; [reflexivity|].
  rewrite remove_track_list_playlist by (rewrite length_app, Nat.add_comm; exact Hfuel).
  cbv zeta.
  destruct (items_loop_trace fuel list_playlist (fun batch => batch) 100 eq_refl 0 []
              (Heap (items ++ [Item Track (Some norm_id)]) None)) as [Hev _].
  apply items_events_no_remove in Hev.
  destruct (String.eqb (py_str norm_id) (py_str track_id)) eqn:Heq.
  - assert (Hfind : find_track_index track_id (items ++ [Item Track (Some norm_id)]) 0
                    = Some (0 + length items)).
    { apply (find_track_index_first track_id _ 0 (length items)
               (Item Track (Some norm_id))).
      - rewrite nth_error_app2, Nat.sub_diag by lia. reflexivity.
      - exact Heq.
      - intros j it' Hj Hnth. rewrite nth_error_app1 in Hnth by exact Hj.
        apply Hnone. apply nth_error_In in Hnth. exact Hnth. }
    cbn [Nat.add] in Hfind. rewrite Hfind. cbn [result final trace remote].
    split; [reflexivity|]. split.
    + intros _. split.
      * rewrite firstn_app, Nat.sub_diag, firstn_all. cbn [firstn].
        rewrite app_nil_r, skipn_all2 by (rewrite length_app; cbn; lia).
        apply app_nil_r.
      * cbn [List.filter is_remove_event]. rewrite List.filter_app, Hev. reflexivity.
    + intros Hne. exfalso. apply Hne. apply String.eqb_eq. exact Heq.
  - assert (Hfind : find_track_index track_id (items ++ [Item Track (Some norm_id)]) 0
                    = None).
    { apply find_track_index_None. intros it Hin. apply in_app_or in Hin as [Hin|[Hit|[]]].
      - apply Hnone, Hin.
      - subst it. exact Heq. }
    rewrite Hfind. cbn [result final trace remote].
    split; [reflexivity|]. split.
    + intros Hsame. exfalso. apply String.eqb_neq in Heq. apply Heq, Hsame.
    + intros _. split; [reflexivity|]. cbn [List.filter is_remove_event]. exact Hev.
Qed.

(** X9. On the list-backed playlist, a track just added is the last entry
    of what [get_playlist_items] then returns, after the [Track] instances that
    were there, under its normalised identifier. *)
Theorem add_then_fetch_shows_track fuel items cached track_id :
  S (length items) / 100 < fuel ->
  let norm_id := match py_int int_str track_id with Ok z => VInt z | _ => track_id end in
  let added := add_track_to_playlist int_str (hooked_session None) "playlist_2" track_id
                 (Heap items cached) in
  result added = Ok tt
  /\ result (get_playlist_items fuel list_playlist (final added))
     = Ok (List.filter is_Track items ++ [Item Track (Some norm_id)]).
Proof.
  intros Hfuel norm_id added. subst added. rewrite add_track_list_playlist. fold norm_id.
  cbn [result final]. split; [reflexivity|].
  rewrite get_playlist_items_list_playlist
    by (rewrite length_app, Nat.add_comm; exact Hfuel).
  rewrite List.filter_app. reflexivity.
Qed.

End ListBackedRoundTrip.

Lemma add_then_remove_round_trip_witness :
  let items := [Item Track (Some (VInt 5)); Item Video (Some (VInt 6))] in
  let session := hooked_session None in
  let added := add_track_to_playlist ascii_decimal session "playlist_2" (VStr "77")
                 (Heap items None) in
  let removed := remove_track_from_playlist 2 session "playlist_2" (VStr "77")
                   (final added) in
  result added = Ok tt
  /\ remote (final added) = (items ++ [Item Track (Some (VInt 77))])%list
  /\ result removed = Ok tt
  /\ (py_str (VInt 77) = py_str (VStr "77") ->
      remote (final removed) = items
      /\ List.filter is_remove_event (trace removed) = [EvRemoveByIndex (length items)])
  /\ (py_str (VInt 77) <> py_str (VStr "77") ->
      remote (final removed) = (items ++ [Item Track (Some (VInt 77))])%list
      /\ List.filter is_remove_event (trace removed) = []).
Proof.
  intros items.
  apply (add_then_remove_round_trip ascii_decimal 2 items None (VStr "77")).
  - vm_compute. lia.
  - intros it [Hit|[Hit|[]]]; subst it; reflexivity.
Defined.

Lemma add_then_fetch_shows_track_witness :
  let items := [Item Track (Some (VInt 5)); Item Video (Some (VInt 6))] in
  let added := add_track_to_playlist ascii_decimal (hooked_session None) "playlist_2"
                 (VStr "77") (Heap items None) in
  result added = Ok tt
  /\ result (get_playlist_items 2 list_playlist (final added))
     = Ok (List.filter is_Track items ++ [Item Track (Some (VInt 77))])%list.
Proof.
  intros items.
  apply (add_then_fetch_shows_track ascii_decimal 2 items None (VStr "77")).
  vm_compute. lia.
Defined.

(** The same identifier written with a sign: [int] accepts it, the entry is
    stored as [77], and the removal, which looks for ["+77"], leaves it. *)
Example add_then_remove_signed_literal :
  let added := add_track_to_playlist ascii_decimal (hooked_session None) "playlist_2"
                 (VStr "+77") (Heap [] None) in
  remote (final (remove_track_from_playlist 2 (hooked_session None) "playlist_2"
                   (VStr "+77") (final added)))
  = [Item Track (Some (VInt 77))].
Proof. reflexivity. Qed.

(** *** The number of page requests *)

Section RequestCount.

Local Open Scope list_scope.

Implicit Types (items : list item) (keep : list item -> list item).

(** On the list-backed playlist the loop issues one request per full page
    and one more, which brings the short or empty page that ends it. *)
Lemma items_loop_list_playlist_requests keep :
  forall fuel items offset all_items cached,
    offset <= length items ->
    (length items - offset) / 100 < fuel ->
    length (trace (items_loop fuel list_playlist keep 100 offset all_items
                     (Heap items cached)))
    = (length items - offset) / 100 + 1.
Proof.
  induction fuel as [|fuel IH]; intros items offset all_items cached Hle Hfuel.
  - inversion Hfuel.
  - rewrite (items_loop_step _ _ _ _ _ _ _ _ _ _
               (fetch_batch_list_playlist offset 100 items cached)).
    cbn [elements_of trace].
    pose proof (length_firstn 100 (skipn offset items)) as Hlen.
    rewrite length_skipn in Hlen.
    destruct (firstn 100 (skipn offset items)) as [|it batch] eqn:Hbatch.
    + cbn [truthy negb ret result final trace app length]. cbn [length] in Hlen.
      replace (length items - offset) with 0 by lia. reflexivity.
    + cbn [truthy negb]. rewrite <- Hbatch in *. clear Hbatch.
      destruct (Nat.ltb (length (firstn 100 (skipn offset items))) 100) eqn:Hshort.
      * apply Nat.ltb_lt in Hshort. cbn [ret result final trace app length].
        rewrite Nat.div_small by lia. reflexivity.
      * apply Nat.ltb_ge in Hshort. rewrite Hlen.
        replace (Init.Nat.min 100 (length items - offset)) with 100 by lia.
        assert (Hdiv : (length items - offset) / 100
                       = S ((length items - (offset + 100)) / 100)).
        { replace (length items - offset) with (1 * 100 + (length items - (offset + 100)))
            by lia.
          rewrite Nat.div_add_l by lia. reflexivity. }
        cbn [app length].
        rewrite (IH items (offset + 100) _ cached ltac:(lia) ltac:(lia)), Hdiv. lia.
Qed.

(** X10. On the list-backed playlist, fetching a playlist of [n] entries
    takes [n / 100 + 1] calls to [playlist.items], for [get_playlist_items] and
    for [remove_track_from_playlist] alike: one per full page of 100 and a last
    one that returns the short page, which is the empty page when [n] is a
    multiple of 100. *)
Theorem list_playlist_page_requests fuel items cached track_id :
  length items / 100 < fuel ->
  length (List.filter is_items_event
            (trace (get_playlist_items fuel list_playlist (Heap items cached))))
  = length items / 100 + 1
  /\ length (List.filter is_items_event
               (trace (remove_track_from_playlist fuel (hooked_session None) "playlist_2"
                         track_id (Heap items cached))))
     = length items / 100 + 1.
Proof.
  intros Hfuel.
  assert (Hall : forall tr, forallb is_items_event tr = true ->
                            List.filter is_items_event tr = tr).
  { induction tr as [|ev tr IH]; [reflexivity|].
    cbn [forallb List.filter]. intros H. apply andb_prop in H as [Hev Htr].
    rewrite Hev, (IH Htr). reflexivity. }
  split.
  - rewrite (page_requests_of_get_playlist_items fuel list_playlist
               (Heap items cached)). cbn [remote].
    rewrite (items_loop_list_playlist_requests (fun batch => batch) fuel items 0 [] None
               ltac:(lia) ltac:(rewrite Nat.sub_0_r; exact Hfuel)).
    rewrite Nat.sub_0_r. reflexivity.
  - rewrite (remove_track_list_playlist fuel items cached track_id Hfuel). cbv zeta.
    destruct (items_loop_trace fuel list_playlist (fun batch => batch) 100 eq_refl 0 []
                (Heap items None)) as [Hev _].
    pose proof (items_loop_list_playlist_requests (fun batch => batch) fuel items 0 [] None
                  ltac:(lia) ltac:(rewrite Nat.sub_0_r; exact Hfuel)) as Hcount.
    rewrite Nat.sub_0_r in Hcount.
    destruct (find_track_index track_id items 0) as [i|]; cbn [trace List.filter is_items_event];
      rewrite ?List.filter_app, (Hall _ Hev); cbn [List.filter is_items_event];
      rewrite ?app_nil_r; exact Hcount.
Qed.

End RequestCount.

Lemma list_playlist_page_requests_witness :
  length (List.filter is_items_event
            (trace (get_playlist_items 4 list_playlist (Heap (tracks_from 0 200) None))))
  = length (tracks_from 0 200) / 100 + 1
  /\ length (List.filter is_items_event
               (trace (remove_track_from_playlist 4 (hooked_session None) "playlist_2"
                         (VStr "7") (Heap (tracks_from 0 200) None))))
     = length (tracks_from 0 200) / 100 + 1.
Proof.
  apply (list_playlist_page_requests 4 (tracks_from 0 200) None (VStr "7")).
  vm_compute. lia.
Defined.

(** *** Where the paging stops *)

Section StoppingRule.

Context {W : Type}.

Local Open Scope list_scope.

Implicit Types (session : Session W) (playlist : Playlist W) (h : heap W).

Lemma ends_at_short_page_other_r limit (tr others : list event) :
  forallb (fun ev => negb (is_items_event ev)) others = true ->
  ends_at_short_page limit (tr ++ others) = ends_at_short_page limit tr.
Proof.
  intros Hother.
  assert (Hex : forall tr', existsb is_items_event (tr' ++ others)
                            = existsb is_items_event tr').
  { intros tr'. rewrite existsb_app.
    replace (existsb is_items_event others) with false; [apply orb_false_r|].
    clear -Hother. induction others as [|ev others IH]; [reflexivity|].
    cbn [forallb existsb] in *. apply andb_prop in Hother as [Hev Hrest].
    destruct (is_items_event ev); [discriminate Hev|]. apply IH, Hrest. }
  induction tr as [|ev tr IH].
  - cbn [app]. clear Hex. induction others as [|ev others IH]; [reflexivity|].
    cbn [forallb] in Hother. apply andb_prop in Hother as [Hev Hrest].
    destruct ev; try discriminate Hev; cbn [ends_at_short_page]; apply IH, Hrest.
  - destruct ev; cbn [app ends_at_short_page]; try exact IH.
    destruct r as [batch|e|]; try exact IH. rewrite Hex, IH. reflexivity.
Qed.

Lemma ends_at_short_page_other_l limit (ev : event) (tr : list event) :
  is_items_event ev = false ->
  ends_at_short_page limit (ev :: tr) = ends_at_short_page limit tr.
Proof. intros Hev. destruct ev; try discriminate Hev; reflexivity. Qed.

(** The loop requests no page after a short one. *)
Lemma items_loop_ends_at_short_page fuel playlist keep limit :
  forall offset all_items h,
    ends_at_short_page limit (trace (items_loop fuel playlist keep limit offset all_items h))
    = true.
Proof.
  induction fuel as [|fuel IH]; intros offset all_items h; [reflexivity|].
  cbn [items_loop]. unfold bind, fetch_batch, try_except, call.
  assert (Hnext : forall batch h1,
             let next :=
               (if negb (truthy batch) then ret all_items
                else if Nat.ltb (length (elements_of batch)) limit
                     then ret (all_items ++ keep (elements_of batch))
                     else items_loop fuel playlist keep limit
                            (offset + length (elements_of batch))
                            (all_items ++ keep (elements_of batch))) h1 in
             (negb (existsb is_items_event (trace next))
              || (truthy batch && Nat.leb limit (length (elements_of batch)))) = true
             /\ ends_at_short_page limit (trace next) = true).
  { intros batch h1. cbv zeta. destruct (truthy batch); cbn [negb]; [|split; reflexivity].
    destruct (Nat.ltb (length (elements_of batch)) limit) eqn:Hshort;
      [split; reflexivity|].
    apply Nat.ltb_ge in Hshort. apply Nat.leb_le in Hshort. rewrite Hshort.
    split; [apply orb_true_r | apply IH]. }
  destruct (pl_items playlist Keyword offset limit h) as [[b|e|] h1]; cbn [result final trace].
  - destruct (Hnext b h1) as [H1 H2]. cbv zeta in H1, H2.
    cbn [app ends_at_short_page]. rewrite H1, H2. reflexivity.
  - destruct (isinstance_TypeError e); cbn [result final trace]; [|reflexivity].
    destruct (pl_items playlist Positional offset limit h1) as [[b|e'|] h2];
      cbn [result final trace app ends_at_short_page]; try reflexivity.
    destruct (Hnext b h2) as [H1 H2]. cbv zeta in H1, H2. rewrite H1, H2. reflexivity.
  - reflexivity.
Qed.

(** X11. Whatever the source, neither fetch asks for a page after a page
    that came back empty, as [None], or with fewer than 100 items: every page
    followed by another call to [playlist.items] held at least 100 items. *)
Theorem fetches_end_at_short_page fuel session playlist playlist_id track_id h :
  ends_at_short_page 100 (trace (get_playlist_items fuel playlist h)) = true
  /\ ends_at_short_page 100
       (trace (remove_track_from_playlist fuel session playlist_id track_id h)) = true.
Proof.
  split.
  - rewrite get_playlist_items_run. cbv zeta.
    pose proof (items_loop_ends_at_short_page fuel playlist (List.filter is_Track) 100 0 []
                  (Heap (remote h) None)) as Hp.
    destruct (items_loop fuel playlist (List.filter is_Track) 100 0 []
                (Heap (remote h) None)) as [[l|e|] h1 tr]; cbn [result final trace] in *;
      try exact Hp.
    destruct (isinstance_RequestException e); cbn [trace ends_at_short_page]; [|exact Hp].
    rewrite ends_at_short_page_other_r; [exact Hp | reflexivity].
  - destruct (remove_track_trace fuel session playlist_id track_id h)
      as [(tr & Htr & _ & _ & Hother)|(pl & h1 & loop & Hpl & Hloop & Hcases)].
    + cbv zeta in Htr. rewrite Htr. cbn [ends_at_short_page].
      rewrite <- (app_nil_l tr), ends_at_short_page_other_r; [reflexivity | exact Hother].
    + pose proof (items_loop_ends_at_short_page fuel pl (fun batch => batch) 100 0 []
                    (Heap (remote h1) None)) as Hp. rewrite <- Hloop in Hp.
      cbv zeta in Hcases.
      destruct Hcases as [[_ Htr]|(items_all & _ & Htr)]; rewrite Htr;
        cbn [ends_at_short_page].
      * rewrite ends_at_short_page_other_r; [exact Hp | apply error_log_not_items].
      * rewrite ends_at_short_page_other_r; [exact Hp|].
        rewrite forallb_app, error_log_not_items, andb_true_r.
        destruct (find_track_index track_id items_all 0); reflexivity.
Qed.

End StoppingRule.

(** *** Exhaustion of the pages, for every source *)

(** C3, amended. [get_playlist_items] calls [playlist.items] with the number
    of items delivered so far as [offset] and 100 as [limit] (by name, and on
    [TypeError] once more with these two numbers by position, [offset]
    first), and it asks for no page after a page that is empty or has fewer
    than 100 items; no declared total enters.  On a source that serves a script
    of pages it therefore returns the [Track] instances of the pages up to and
    including the first one shorter than 100, and leaves the rest of the script
    unrequested.  Served pages of 50 then 25, it returns the [Track] instances
    of the first page and never requests the second; served pages of 300 then
    150, it returns the [Track] instances of both, which are all 450 items
    when every item is a track. *)
Theorem get_playlist_items_stops_at_short_page :
  (forall W fuel (playlist : Playlist W) (h : heap W),
      paged_from 100 0 (trace (get_playlist_items fuel playlist h)) = true
      /\ ends_at_short_page 100 (trace (get_playlist_items fuel playlist h)) = true)
  /\ (forall fuel (pages : list (list item)) cached,
        length pages < fuel ->
        let r := get_playlist_items fuel scripted_playlist (Heap pages cached) in
        result r = Ok (List.filter is_Track (concat (pages_read 100 pages)))
        /\ remote (final r) = skipn (length (pages_read 100 pages)) pages)
  /\ (forall fuel (p1 p2 q1 q2 : list item) cached,
        2 < fuel ->
        length p1 = 50 -> length p2 = 25 ->
        length q1 = 300 -> length q2 = 150 ->
        (let r := get_playlist_items fuel scripted_playlist (Heap [p1; p2] cached) in
         result r = Ok (List.filter is_Track p1) /\ remote (final r) = [p2])
        /\ (let r := get_playlist_items fuel scripted_playlist (Heap [q1; q2] cached) in
            result r = Ok (List.filter is_Track (q1 ++ q2)%list)
            /\ remote (final r) = []
            /\ (forallb is_Track (q1 ++ q2)%list = true ->
                exists tracks, result r = Ok tracks /\ length tracks = 450))).
Proof.
  assert (Hrun : forall fuel (pages : list (list item)) cached,
             length pages < fuel ->
             let r := get_playlist_items fuel scripted_playlist (Heap pages cached) in
             result r = Ok (List.filter is_Track (concat (pages_read 100 pages)))
             /\ remote (final r) = skipn (length (pages_read 100 pages)) pages).
  { intros fuel pages cached Hlen. cbv zeta. rewrite get_playlist_items_run. cbv zeta.
    destruct (items_loop_scripted (List.filter is_Track) 100 eq_refl ltac:(lia)
                fuel pages 0 [] None Hlen) as [Hres Hrem].
    cbn [remote]. rewrite Hres. cbn [app result final].
    rewrite flat_map_filter_concat. split; [reflexivity | exact Hrem]. }
  split; [|split; [exact Hrun|]].
  - intros W fuel playlist h. rewrite get_playlist_items_run. cbv zeta.
    pose proof (items_loop_paged fuel playlist (List.filter is_Track) 100 0 []
                  (Heap (remote h) None)) as Hp.
    pose proof (items_loop_ends_at_short_page fuel playlist (List.filter is_Track) 100 0 []
                  (Heap (remote h) None)) as He.
    destruct (items_loop fuel playlist (List.filter is_Track) 100 0 []
                (Heap (remote h) None)) as [[l|e|] h1 tr]; cbn [result final trace] in *;
      cbn [paged_from ends_at_short_page]; try (split; assumption).
    destruct (isinstance_RequestException e); cbn [trace paged_from ends_at_short_page];
      [|split; assumption].
    rewrite paged_from_app, Hp, ends_at_short_page_other_r by reflexivity.
    split; [reflexivity | exact He].
  - intros fuel p1 p2 q1 q2 cached Hfuel Hp1 Hp2 Hq1 Hq2. split.
    + cbv zeta. destruct (Hrun fuel [p1; p2] cached Hfuel) as [Hres Hrem].
      rewrite Hres, Hrem. cbn [pages_read]. rewrite Hp1.
      cbn [Nat.ltb Nat.leb concat length skipn]. rewrite app_nil_r. split; reflexivity.
    + cbv zeta. destruct (Hrun fuel [q1; q2] cached Hfuel) as [Hres Hrem].
      rewrite Hres, Hrem. cbn [pages_read]. rewrite Hq1, Hq2.
      replace (Nat.ltb 300 100) with false by reflexivity.
      replace (Nat.ltb 150 100) with false by reflexivity.
      cbn [pages_read concat length skipn]. rewrite app_nil_r.
      split; [reflexivity|]. split; [reflexivity|].
      intros Hall. eexists; split; [reflexivity|].
      assert (Hid : List.filter is_Track (q1 ++ q2)%list = (q1 ++ q2)%list).
      { revert Hall. generalize (q1 ++ q2)%list as l.
        induction l as [|it l IH]; [reflexivity|].
        cbn [forallb List.filter]. intros Hall. apply andb_prop in Hall as [Hit Hl].
        rewrite Hit, (IH Hl). reflexivity. }
      rewrite Hid, length_app, Hq1, Hq2. reflexivity.
Qed.

Lemma get_playlist_items_stops_at_short_page_witness :
  (let r := get_playlist_items 3 scripted_playlist
              (Heap [tracks_from 0 50; tracks_from 50 25] None) in
   result r = Ok (List.filter is_Track (tracks_from 0 50))
   /\ remote (final r) = [tracks_from 50 25])
  /\ (let r := get_playlist_items 3 scripted_playlist
                 (Heap [tracks_from 0 300; tracks_from 300 150] None) in
      result r = Ok (List.filter is_Track (tracks_from 0 300 ++ tracks_from 300 150)%list)
      /\ remote (final r) = []
      /\ (forallb is_Track (tracks_from 0 300 ++ tracks_from 300 150)%list = true ->
          exists tracks, result r = Ok tracks /\ length tracks = 450)).
Proof.
  apply (proj2 (proj2 get_playlist_items_stops_at_short_page) 3
           (tracks_from 0 50) (tracks_from 50 25)
           (tracks_from 0 300) (tracks_from 300 150) None).
  - lia.
  - vm_compute; reflexivity.
  - vm_compute; reflexivity.
  - vm_compute; reflexivity.
  - vm_compute; reflexivity.
Defined.

(** Pages of 80 then 5: the first is short, so the second stays unrequested
    and 80 items are returned. *)
Example get_playlist_items_pages_of_80_then_5 :
  let r := get_playlist_items 3 scripted_playlist
             (Heap [tracks_from 0 80; tracks_from 80 5] None) in
  result r = Ok (tracks_from 0 80) /\ remote (final r) = [tracks_from 80 5].
Proof. vm_compute. split; reflexivity. Qed.

(** ** Further properties of the MPD attribute patch *)

Section PatchedParserMore.

Context {V : Type} (int_str : string -> option Z).

Implicit Types (node : xmlnode) (attr_name attr_val : string).

Lemma comprehension_str (l : list string) :
  comprehension (apply_type (V := V) int_str TyStr) l = Ok (map SStr l).
Proof.
  induction l as [|s l IH]; [reflexivity|].
  cbn [comprehension apply_type res_bind map]. rewrite IH. reflexivity.
Qed.

(** Converting with [int] succeeds on a list exactly when [int] accepts
    every string of it. *)
Lemma comprehension_int_all (l : list string) :
  (forallb (fun piece => match int_str piece with Some _ => true | None => false end) l = true ->
   comprehension (apply_type (V := V) int_str TyInt) l
   = Ok (map (fun piece => match int_str piece with
                           | Some z => SInt z
                           | None => SStr piece
                           end) l))
  /\ (forallb (fun piece => match int_str piece with Some _ => true | None => false end) l
      = false ->
      exists e, comprehension (apply_type (V := V) int_str TyInt) l = Raise e
                /\ isinstance_TypeError_or_ValueError e = true).
Proof.
  induction l as [|s l [IHok IHbad]]; [split; [reflexivity | intros H; discriminate H]|].
  cbn [forallb comprehension apply_type py_int res_bind map].
  destruct (int_str s) as [z|]; cbn [res_bind andb].
  - split.
    + intros Hall. rewrite (IHok Hall). reflexivity.
    + intros Hbad. destruct (IHbad Hbad) as (e & He & Hcatch). rewrite He.
      exists e. split; [reflexivity | exact Hcatch].
  - split; [intros H; discriminate H|]. intros _. eexists. split; reflexivity.
Qed.

(** X12. The patched parser never lets a [ValueError] or a [TypeError] out,
    for any declared type: when it raises, the exception is of another class,
    nothing was logged, the attribute is there, and the declared type is, or
    starts with, a callable other than [int] and [str].  The exception is then
    either the one that callable raised, or, for a single callable that has no
    [__name__] and raised a [ValueError] or a [TypeError], the
    [AttributeError] of the handler that builds the debug line.  With [int]
    and [str] alone the parser always returns. *)
Theorem patched_parse_raises_no_conversion_error node attr_name (vt : value_type V) e debug :
  patched_parse_attr_value int_str node attr_name vt = (Raise e, debug) ->
  isinstance_TypeError_or_ValueError e = false
  /\ debug = []
  /\ exists name conv attr_val,
       attributes node !! attr_name = Some attr_val
       /\ (vt = VTScalar (TyOther name conv)
           /\ (conv attr_val = Raise e
               \/ name = None
                  /\ exn_cls e = AttributeError
                  /\ exists e0, conv attr_val = Raise e0
                                /\ isinstance_TypeError_or_ValueError e0 = true)
           \/ exists ts, vt = VTList (TyOther name conv :: ts)
                         /\ comprehension (apply_type int_str (TyOther name conv))
                              (re_split attr_val) = Raise e).
Proof.
  unfold patched_parse_attr_value.
  destruct (attributes node !! attr_name) as [attr_val|]; [|intros H; discriminate H].
  destruct vt as [ts|t].
  - destruct ts as [|t ts].
    + rewrite comprehension_str. intros H; discriminate H.
    + destruct t as [| |name conv].
      * destruct (comprehension_int (V := V) int_str (re_split attr_val))
          as [[xs Hxs]|(e0 & He0 & Hcatch)].
        -- rewrite Hxs. intros H; discriminate H.
        -- rewrite He0, Hcatch. intros H; discriminate H.
      * rewrite comprehension_str. intros H; discriminate H.
      * destruct (comprehension (apply_type int_str (TyOther name conv)) (re_split attr_val))
          as [xs|e0|] eqn:Hcomp; cbn [res_bind]; try (intros H; discriminate H).
        destruct (isinstance_TypeError_or_ValueError e0) eqn:Hcatch;
          intros H; inversion H; subst.
        split; [exact Hcatch|]. split; [reflexivity|].
        exists name, conv, attr_val. split; [reflexivity|]. right. exists ts.
        split; [reflexivity | exact Hcomp].
  - destruct t as [| |name conv]; cbn [is_int_type].
    + rewrite safe_int_total. destruct (py_int int_str (VStr attr_val)) as [z|e0|];
        intros H; discriminate H.
    + cbn. intros H; discriminate H.
    + cbn [apply_type]. destruct (conv attr_val) as [v|e0|] eqn:Hconv; cbn [res_bind];
        try (intros H; discriminate H).
      destruct (isinstance_TypeError_or_ValueError e0) eqn:Hcatch.
      * destruct name as [name|]; cbn [type_name]; intros H; inversion H; subst.
        split; [reflexivity|]. split; [reflexivity|].
        exists None, conv, attr_val. split; [reflexivity|]. left.
        split; [reflexivity|]. right. split; [reflexivity|]. split; [reflexivity|].
        exists e0. split; [exact Hconv | exact Hcatch].
      * intros H; inversion H; subst.
        split; [exact Hcatch|]. split; [reflexivity|].
        exists name, conv, attr_val. split; [reflexivity|]. left.
        split; [reflexivity|]. left. exact Hconv.
Qed.

(** X13. An attribute declared as a list of [int] comes back whole or not
    at all: when [int] accepts every piece of the value, split at commas and
    spaces, the result is the list of the integers; as soon as it rejects one
    piece, the result is the list of all the pieces as strings, those [int]
    accepts included.  Either way the result has one entry per piece and
    nothing is logged. *)
Theorem patched_parse_int_list_all_or_nothing node attr_name attr_val (ts : list (type_obj V)) :
  attributes node !! attr_name = Some attr_val ->
  let pieces := re_split attr_val in
  let accepted := fun piece => match int_str piece with Some _ => true | None => false end in
  patched_parse_attr_value int_str node attr_name (VTList (TyInt :: ts))
  = (Ok (PList (if forallb accepted pieces
                then map (fun piece => match int_str piece with
                                       | Some z => SInt z
                                       | None => SStr piece
                                       end) pieces
                else map SStr pieces)), [])
  /\ (forall xs debug,
        patched_parse_attr_value int_str node attr_name (VTList (TyInt :: ts))
        = (Ok (PList xs), debug) ->
        length xs = length pieces).
Proof.
  intros Hattr pieces accepted.
  assert (Hrun : patched_parse_attr_value int_str node attr_name (VTList (TyInt :: ts))
                 = (Ok (PList (if forallb accepted pieces
                               then map (fun piece => match int_str piece with
                                                      | Some z => SInt z
                                                      | None => SStr piece
                                                      end) pieces
                               else map SStr pieces)), [])).
  { unfold patched_parse_attr_value. rewrite Hattr. fold pieces.
    destruct (comprehension_int_all pieces) as [Hok Hbad]. fold accepted in Hok, Hbad.
    destruct (forallb accepted pieces).
    - rewrite (Hok eq_refl). reflexivity.
    - destruct (Hbad eq_refl) as (e & He & Hcatch). rewrite He, Hcatch. reflexivity. }
  split; [exact Hrun|].
  intros xs debug Hxs. rewrite Hrun in Hxs. inversion Hxs; subst.
  destruct (forallb accepted pieces); apply length_map.
Qed.

End PatchedParserMore.

(** [decimal.Decimal] on a value that is no number raises
    [decimal.InvalidOperation], which is neither a [ValueError] nor a
    [TypeError]: it leaves the parser. *)
Lemma patched_parse_raises_no_conversion_error_witness :
  let invalid := Exn OtherException "[<class 'decimal.ConversionSyntax'>]" in
  let conv := fun s : string =>
                match ascii_decimal s with
                | Some z => Ok z
                | None => Raise invalid
                end in
  let node := {| attributes := {[ "id" := "main" ]} |} in
  isinstance_TypeError_or_ValueError invalid = false
  /\ @nil string = []
  /\ exists name conv' attr_val,
       attributes node !! "id" = Some attr_val
       /\ (VTScalar (TyOther (Some "Decimal") conv) = VTScalar (TyOther name conv')
           /\ (conv' attr_val = Raise invalid
               \/ name = None
                  /\ exn_cls invalid = AttributeError
                  /\ exists e0, conv' attr_val = Raise e0
                                /\ isinstance_TypeError_or_ValueError e0 = true)
           \/ exists ts,
                VTScalar (TyOther (Some "Decimal") conv) = VTList (TyOther name conv' :: ts)
                /\ comprehension (apply_type ascii_decimal (TyOther name conv'))
                     (re_split attr_val) = Raise invalid).
Proof.
  intros invalid conv node.
  apply (patched_parse_raises_no_conversion_error ascii_decimal node "id"
           (VTScalar (TyOther (Some "Decimal") conv)) invalid []).
  reflexivity.
Defined.

(** A callable without [__name__] (a [functools.partial]) that raises
    [ValueError]: the handler raises [AttributeError] and logs nothing. *)
Example patched_parse_callable_without_name :
  patched_parse_attr_value ascii_decimal
    {| attributes := {[ "id" := "main" ]} |} "id"
    (VTScalar (TyOther None (fun s => match ascii_decimal s with
                                      | Some z => Ok z
                                      | None => Raise (Exn ValueError "invalid literal")
                                      end)))
  = (Raise (Exn AttributeError "object has no attribute '__name__'"), []).
Proof. reflexivity. Qed.

(** The same conversion under a name: [None], and one debug line. *)
Example patched_parse_named_callable :
  patched_parse_attr_value ascii_decimal
    {| attributes := {[ "id" := "main" ]} |} "id"
    (VTScalar (TyOther (Some "to_number")
                 (fun s => match ascii_decimal s with
                           | Some z => Ok z
                           | None => Raise (Exn ValueError "invalid literal")
                           end)))
  = (Ok PNone, ["mpegdash: Could not convert 'id'='main' to to_number, using None"]).
Proof. reflexivity. Qed.

Lemma patched_parse_int_list_all_or_nothing_witness :
  let node := {| attributes := {[ "ids" := "1,2 main" ]} |} in
  let pieces := re_split "1,2 main" in
  let accepted := fun piece => match ascii_decimal piece with Some _ => true | None => false end in
  patched_parse_attr_value (V := unit) ascii_decimal node "ids" (VTList [TyInt])
  = (Ok (PList (if forallb accepted pieces
                then map (fun piece => match ascii_decimal piece with
                                       | Some z => SInt z
                                       | None => SStr piece
                                       end) pieces
                else map SStr pieces)), [])
  /\ (forall xs debug,
        patched_parse_attr_value (V := unit) ascii_decimal node "ids" (VTList [TyInt])
        = (Ok (PList xs), debug) ->
        length xs = length pieces).
Proof.
  intros node.
  apply (patched_parse_int_list_all_or_nothing (V := unit) ascii_decimal node "ids"
           "1,2 main" []).
  reflexivity.
Defined.

(** A doubled separator leaves an empty piece, which [int] rejects: the
    whole list comes back as strings. *)
Example patched_parse_list_doubled_separator :
  patched_parse_attr_value (V := unit) ascii_decimal
    {| attributes := {[ "ids" := "1, 2" ]} |} "ids" (VTList [TyInt])
  = (Ok (PList [SStr "1"; SStr ""; SStr "2"]), []).
Proof. reflexivity. Qed.

(** *** Failed installations *)

(** X14. While [mpegdash] cannot be imported, or its [utils] has no
    [parse_attr_value], a call to [apply_mpegdash_patch] installs nothing and
    does not set the guard, so that every later call tries again: [n] calls
    leave the guard unset and the module as it was and log [n] warnings. *)
Theorem apply_mpegdash_patch_retries_when_unavailable (n : nat) (st : interp) :
  _patched st = false ->
  (mpegdash_utils st = None \/ mpegdash_utils st = Some None) ->
  apply_mpegdash_patch_times n st
  = Interp false (mpegdash_utils st)
      (logged st
       ++ repeat (WARNING,
                  match mpegdash_utils st with
                  | None => "Could not import mpegdash, patch not applied"
                  | Some _ => "Failed to apply mpegdash patch: module 'mpegdash.utils' has no attribute 'parse_attr_value'"
                  end) n).
Proof.
  revert st. induction n as [|n IH]; intros st Hp Hmod.
  - cbn [apply_mpegdash_patch_times repeat]. rewrite app_nil_r.
    destruct st as [p m l]. cbn in *. subst p. reflexivity.
  - cbn [apply_mpegdash_patch_times repeat].
    assert (Hstep : apply_mpegdash_patch st
                    = Interp false (mpegdash_utils st)
                        (logged st
                         ++ [(WARNING,
                              match mpegdash_utils st with
                              | None => "Could not import mpegdash, patch not applied"
                              | Some _ => "Failed to apply mpegdash patch: module 'mpegdash.utils' has no attribute 'parse_attr_value'"
                              end)])).
    { unfold apply_mpegdash_patch. rewrite Hp.
      destruct Hmod as [Hmod|Hmod]; rewrite Hmod; reflexivity. }
    rewrite Hstep, IH; cbn [_patched mpegdash_utils logged]; [|reflexivity|exact Hmod].
    rewrite <- app_assoc. reflexivity.
Qed.

Lemma apply_mpegdash_patch_retries_when_unavailable_witness :
  apply_mpegdash_patch_times 3 (Interp false None [])
  = Interp false None
      ([] ++ repeat (WARNING, "Could not import mpegdash, patch not applied") 3).
Proof.
  apply (apply_mpegdash_patch_retries_when_unavailable 3 (Interp false None [])).
  - reflexivity.
  - left; reflexivity.
Defined.

(** *** The parser in place after the patch *)

Section InstalledParser.

Context {V : Type} (int_str : string -> option Z).

(** X15. After one call or more on an interpreter where the guard is unset
    and [mpegdash.utils.parse_attr_value] is bound, the parser in place, run on
    an attribute declared [int], returns for every node and attribute name,
    whatever the parser it replaced would have done: [None] for a missing
    attribute or a value [int] rejects, the integer otherwise. *)
Theorem patched_interpreter_parses_int_safely
    (n : nat) (st : interp) original
    (library : xmlnode -> string -> value_type V -> res (parsed V) * list string)
    (node : xmlnode) (attr_name : string) :
  1 <= n ->
  _patched st = false ->
  mpegdash_utils st = Some (Some original) ->
  exists installed,
    mpegdash_utils (apply_mpegdash_patch_times n st) = Some (Some installed)
    /\ exists debug,
         parser_behaviour int_str library installed node attr_name (VTScalar TyInt)
         = (Ok (match attributes node !! attr_name with
                | Some attr_val =>
                    match int_str attr_val with
                    | Some z => PScalar (SInt z)
                    | None => PNone
                    end
                | None => PNone
                end), debug).
Proof.
  intros Hn Hp Hmod. destruct n as [|n]; [inversion Hn|].
  cbn [apply_mpegdash_patch_times].
  assert (Hstep : apply_mpegdash_patch st
                  = Interp true (Some (Some (PatchedParser original)))
                           (logged st ++ [(DEBUG, "mpegdash patch applied successfully")])).
  { unfold apply_mpegdash_patch. rewrite Hp, Hmod. reflexivity. }
  rewrite Hstep, apply_mpegdash_patch_times_guarded by reflexivity.
  exists (PatchedParser original). split; [reflexivity|].
  cbn [parser_behaviour]. unfold patched_parse_attr_value.
  destruct (attributes node !! attr_name) as [attr_val|]; [|eexists; reflexivity].
  cbn [is_int_type]. rewrite safe_int_total. cbn [py_int].
  destruct (int_str attr_val); eexists; reflexivity.
Qed.

End InstalledParser.

Lemma patched_interpreter_parses_int_safely_witness :
  let node := {| attributes := {[ "id" := "main" ]} |} in
  let library := fun (_ : xmlnode) (_ : string) (_ : value_type unit) =>
                   (Raise (A := parsed unit)
                      (Exn ValueError "invalid literal for int() with base 10: 'main'"),
                    @nil string) in
  exists installed,
    mpegdash_utils (apply_mpegdash_patch_times 2 (Interp false (Some (Some LibraryParser)) []))
      = Some (Some installed)
    /\ exists debug,
         parser_behaviour ascii_decimal library installed node "id" (VTScalar TyInt)
         = (Ok (match attributes node !! "id" with
                | Some attr_val =>
                    match ascii_decimal attr_val with
                    | Some z => PScalar (SInt z)
                    | None => PNone
                    end
                | None => PNone
                end), debug).
Proof.
  intros node library.
  apply (patched_interpreter_parses_int_safely (V := unit) ascii_decimal 2
           (Interp false (Some (Some LibraryParser)) []) LibraryParser library node "id").
  - lia.
  - reflexivity.
  - reflexivity.
Defined.
